(** * kepfold: phase folding and phase binning of a light curve

    A shallow embedding of [pyke/kepfold.py] (function [kepfold]) and the
    properties of its numeric pipeline: validity filter, phase
    computation, phase sort, phase binning, assembly of the FOLDED table
    and the wrap-around copy made for display.

    Numbers are IEEE binary64 values (Rocq's primitive [float]); a NumPy
    [float32] array holds binary64 values rounded by [to_f32]. A
    [float32] scalar combined with a Python float gives a [float64], as
    NumPy did when the module was written, so comparisons and the
    shifts by one cycle are exact binary64 operations. The file
    container, the log and the plot are left out: the embedding starts
    from the columns read from the table and ends with the local arrays
    [kepfold] hands to the FITS writer and to the plot. *)

Set Warnings "-inexact-float".
From Stdlib Require Import ZArith List Bool String Floats Lia.
From Stdlib Require Import QArith Qround Permutation Sorted.
From Stdlib Require Ascii.
Import ListNotations.

(** ** NumPy scalars *)

Module Np.
Local Open Scope float_scope.

(** The integer [z] as a float, rounded to nearest even (Python's
    [float(z)]; beyond the binary64 range Python raises where this gives
    an infinity). *)
Definition float_of_Z (z : Z) : float :=
  SF2Prim (binary_normalize prec emax z 0 false).

(** [np.floor]: a finite value [(-1)^s * m * 2^e] with [e < 0] is cut to
    the integer below it; integers, zeros, infinities and NaN are left as
    they are. *)
Definition floor (x : float) : float :=
  match Prim2SF x with
  | S754_finite s m e =>
      if (0 <=? e)%Z then x
      else
        let q := Z.shiftr (Zpos m) (- e) in
        let exact := (Z.shiftl q (- e) =? Zpos m)%Z in
        if s then - float_of_Z (if exact then q else q + 1)
        else float_of_Z q
  | _ => x
  end.

(** Storage as [float32]: round to nearest even in the binary32 format
    (24-bit significand, infinities from [2^128]). *)
Definition to_f32 (x : float) : float :=
  match Prim2SF x with
  | S754_finite s m e =>
      SF2Prim (binary_normalize 24 128 (if s then Zneg m else Zpos m) e s)
  | _ => x
  end.

(** [np.isfinite]. *)
Definition isfinite (x : float) : bool := is_finite x.

(** [a / c] for a [float32] array [a] and a Python float [c]: NumPy runs
    the binary32 loop, with [c] narrowed to binary32. *)
Definition div_scalar (x c : float) : float := to_f32 (x / to_f32 c).

End Np.

(** ** Python exceptions and the error monad *)

Inductive exn : Type :=
| IndexError
| NameError
| UnboundLocalError
| ZeroDivisionError.

Definition result (A : Type) : Type := (exn + A)%type.

Definition ret {A} (a : A) : result A := inr a.
Definition raise {A} (e : exn) : result A := inl e.
Definition bind {A B} (c : result A) (k : A -> result B) : result B :=
  match c with
  | inl e => inl e
  | inr a => k a
  end.

Declare Scope result_scope.
Delimit Scope result_scope with result.
Notation "x <- c ;; k" := (bind c (fun x => k))
  (at level 61, c at next level, right associativity) : result_scope.

(** ** Data model *)

(** One row of the light-curve table: the columns [kepfold] reads. *)
Record Row : Type := mkRow {
  barytime : float;
  sap : float;
  saperr : float;
  pdc : float;
  pdcerr : float;
  cbv : float;
  det : float;
  deterr : float;
  quality : Z
}.

(** The nine-slot list appended to [ptuple] (slots 0 to 8). *)
Record PTuple : Type := mkPTuple {
  t_phase : float;
  t_sap : float;
  t_saperr : float;
  t_pdc : float;
  t_pdcerr : float;
  t_cbv : float;
  t_cbverr : float;
  t_det : float;
  t_deterr : float
}.

(** One entry of the parallel arrays [phase4], [sap4], ..., [deterr4]. *)
Record PhaseBin : Type := mkPhaseBin {
  b_phase : float;
  b_sap : float;
  b_saperr : float;
  b_pdc : float;
  b_pdcerr : float;
  b_cbv : float;
  b_cbverr : float;
  b_det : float;
  b_deterr : float
}.

(** One row of the FOLDED extension (eight columns: no CBV error). *)
Record FoldedRow : Type := mkFoldedRow {
  PHASE : float;
  SAP_FLUX : float;
  SAP_FLUX_ERR : float;
  PDC_FLUX : float;
  PDC_FLUX_ERR : float;
  CBV_FLUX : float;
  DET_FLUX : float;
  DET_FLUX_ERR : float
}.

(** The arguments of [kepfold] that reach the numeric pipeline, with the
    table and the two header values read from the input file. *)
Record Args : Type := mkArgs {
  table : list Row;
  bjdref : float;
  cadenom : float;
  period : float;
  bjd0 : float;
  bindata : bool;
  binmethod : string;
  threshold : float;
  niter : Z;
  nbins : Z;
  rejqual : bool;
  plottype : string
}.

(** ** ValidityFilter (lines 223-267) *)

Section Filter.
Local Open Scope float_scope.

(** Python's [sub in s] on strings. *)
Fixpoint contains (sub s : string) : bool :=
  String.prefix sub s
  || match s with
     | EmptyString => false
     | String _ s' => contains sub s'
     end.

(** The four [if '...' in plottype] statements that bind [datacol] and
    [errcol]; a later match overrides an earlier one, and with no match
    both names stay unbound. *)
Definition select_columns (plottype : string)
  : option ((Row -> float) * (Row -> float)) :=
  let c0 := None in
  let c1 := if contains "sap" plottype then Some (sap, saperr) else c0 in
  let c2 := if contains "pdc" plottype then Some (pdc, pdcerr) else c1 in
  let c3 := if contains "cbv" plottype then Some (cbv, saperr) else c2 in
  if contains "det" plottype then Some (det, deterr) else c3.

(** The eight lists the filter loop fills (there is no [work7]). *)
Record Kept : Type := mkKept {
  work1 : list float;
  work2 : list float;
  work3 : list float;
  work4 : list float;
  work5 : list float;
  work6 : list float;
  work8 : list float;
  work9 : list float
}.

Definition no_rows : Kept := mkKept [] [] [] [] [] [] [] [].

(** The eight [append] calls of either branch. *)
Definition append_row (k : Kept) (r : Row) : Kept :=
  {| work1 := work1 k ++ [barytime r];
     work2 := work2 k ++ [sap r];
     work3 := work3 k ++ [saperr r];
     work4 := work4 k ++ [pdc r];
     work5 := work5 k ++ [pdcerr r];
     work6 := work6 k ++ [cbv r];
     work8 := work8 k ++ [det r];
     work9 := work9 k ++ [deterr r] |}.

(** One turn of [for i in range(len(barytime))]. *)
Definition filter_step (datacol errcol : Row -> float) (rejqual : bool)
  (k : Kept) (r : Row) : Kept :=
  if Np.isfinite (barytime r)
     && Np.isfinite (datacol r) && negb (datacol r =? 0)
     && Np.isfinite (errcol r) && (0 <? errcol r)
  then
    if rejqual && (quality r =? 0)%Z then append_row k r
    else if negb rejqual then append_row k r
    else k
  else k.

(** The filter loop. Reading [datacol[i]] with [datacol] unbound raises,
    which needs at least one row. *)
Definition filter_rows (plottype : string) (rejqual : bool)
  (tbl : list Row) : result Kept :=
  match tbl with
  | [] => ret no_rows
  | _ :: _ =>
      match select_columns plottype with
      | None => raise UnboundLocalError
      | Some (datacol, errcol) =>
          ret (fold_left (filter_step datacol errcol rejqual) tbl no_rows)
      end
  end.

(** The condition under which row [i] is kept, in one expression. *)
Definition retained (datacol errcol : Row -> float) (rejqual : bool)
  (r : Row) : bool :=
  Np.isfinite (barytime r)
  && (Np.isfinite (datacol r) && negb (datacol r =? 0))
  && (Np.isfinite (errcol r) && (0 <? errcol r))
  && (negb rejqual || (quality r =? 0)%Z).

(** The columns of a list of rows. *)
Definition columns_of (rows : list Row) : Kept :=
  {| work1 := map barytime rows;
     work2 := map sap rows;
     work3 := map saperr rows;
     work4 := map pdc rows;
     work5 := map pdcerr rows;
     work6 := map cbv rows;
     work8 := map det rows;
     work9 := map deterr rows |}.

End Filter.

(** ** PhaseMapper (lines 269-276) *)

Section Phase.
Local Open Scope float_scope.

(** [if bjd0 < bjdref: bjd0 += bjdref]. *)
Definition shift_bjd0 (bjd0 bjdref : float) : float :=
  if bjd0 <? bjdref then bjd0 + bjdref else bjd0.

(** [date / period - np.floor(date / period)] with
    [date = t + bjdref - bjd0]. *)
Definition phase_of (bjdref bjd0 period t : float) : float :=
  let date := t + bjdref - bjd0 in
  date / period - Np.floor (date / period).

(** The same formula over the rationals, where no rounding takes place. *)
Definition phase_exact (bjdref bjd0 period t : Q) : Q :=
  let date := (t + bjdref - bjd0)%Q in
  (date / period - inject_Z (Qfloor (date / period)))%Q.

(** What the filtered row [r] becomes in [ptuple]. *)
Definition mk_ptuple (bjdref bjd0 period cadenom : float) (r : Row)
  : PTuple :=
  let scaled x := Np.div_scalar (Np.to_f32 x) cadenom in
  {| t_phase := Np.to_f32 (phase_of bjdref bjd0 period (barytime r));
     t_sap := scaled (sap r);
     t_saperr := scaled (saperr r);
     t_pdc := scaled (pdc r);
     t_pdcerr := scaled (pdcerr r);
     t_cbv := scaled (cbv r);
     t_cbverr := scaled (saperr r);
     t_det := scaled (det r);
     t_deterr := scaled (deterr r) |}.

(** Lines 260-287: the [float32] arrays divided by [cadenom], [phase2],
    and the loop that appends one nine-slot list per index to [ptuple].
    All arrays have the length of [phase2], so no index is out of range
    and the default of [nth] is never used. *)
Definition ptuple_of (bjdref bjd0 period cadenom : float) (k : Kept)
  : list PTuple :=
  let scaled x := Np.div_scalar (Np.to_f32 x) cadenom in
  let barytime := work1 k in
  let sap := map scaled (work2 k) in
  let saperr := map scaled (work3 k) in
  let pdc := map scaled (work4 k) in
  let pdcerr := map scaled (work5 k) in
  let cbv := map scaled (work6 k) in
  let det := map scaled (work8 k) in
  let deterr := map scaled (work9 k) in
  let phase2 :=
    map (fun t => Np.to_f32 (phase_of bjdref bjd0 period t)) barytime in
  map (fun i =>
         {| t_phase := nth i phase2 0;
            t_sap := nth i sap 0;
            t_saperr := nth i saperr 0;
            t_pdc := nth i pdc 0;
            t_pdcerr := nth i pdcerr 0;
            t_cbv := nth i cbv 0;
            t_cbverr := nth i saperr 0;
            t_det := nth i det 0;
            t_deterr := nth i deterr 0 |})
      (seq 0 (List.length phase2)).

End Phase.

(** ** PhaseSorter (lines 278-307) *)

Section Sorter.
Local Open Scope float_scope.

(** [sorted(ptuple, key=lambda ph: ph[0])]: a stable sort that compares
    keys with [<] only. It is modelled by insertion from the right, an
    entry going in front of the first entry whose key is not smaller. *)
Fixpoint insert_sorted (x : PTuple) (l : list PTuple) : list PTuple :=
  match l with
  | [] => [x]
  | y :: l' =>
      if t_phase y <? t_phase x then y :: insert_sorted x l'
      else x :: l
  end.

Fixpoint sorted (l : list PTuple) : list PTuple :=
  match l with
  | [] => []
  | x :: l' => insert_sorted x (sorted l')
  end.

End Sorter.

(** ** BinAggregator (lines 309-403) *)

(** The reductions [kepfold] calls from other modules. [np.nanmean],
    [np.nanmedian] and [kepstat.mean_err] map a buffer to a number.
    [lsqclip_poly0 guess x y yerr lo hi niter] stands for the first
    coefficient returned by
    [kepfit.lsqclip(kepfunc.poly0, [guess], x, y, yerr, lo, hi, niter, ...)],
    or for the exception the call ends with. The module never imports
    [kepfunc], so as the file stands the call ends with [NameError]; the
    outcome is kept open here so that the statements also cover the call
    with the import in place. *)
Class Reductions : Type := {
  nanmean : list float -> float;
  nanmedian : list float -> float;
  mean_err : list float -> float;
  lsqclip_poly0 :
    float -> list float -> list float -> list float ->
    float -> float -> Z -> result float
}.

Section Binning.
Context {R : Reductions}.
Local Open Scope float_scope.
Local Open Scope result_scope.

(** The loop variables: the bin index [nb], the buffers [work1] ...
    [work8] and the output arrays [phase4] ... [deterr4]. The eight
    buffers grow and are emptied together, so they are kept as one list
    of tuples ([work1] is its [t_sap] column, [work6] its [t_cbverr]
    column); each output entry is kept with the buffer it was computed
    from. *)
Record BinState : Type := mkBinState {
  nb : float;
  work : list PTuple;
  emitted : list (list PTuple * PhaseBin)
}.

(** [np.arange(0.0, float(n), 1.0)]. *)
Definition arange (n : nat) : list float :=
  map (fun i => Np.float_of_Z (Z.of_nat i)) (seq 0 n).

(** One sigma-clipped fit of a value buffer with its error buffer. *)
Definition clipped (threshold : float) (niter : Z) (y yerr : list float)
  : result float :=
  lsqclip_poly0 (nanmean y) (arange (List.length y)) y yerr
                threshold threshold niter.

(** The body of [if len(work1) > 0:], which appends one entry to each
    output array. *)
Definition reduce_bin (binmethod : string) (threshold : float) (niter : Z)
  (dt nb : float) (w : list PTuple) : result PhaseBin :=
  let ph := (nb + 0.5) * dt in
  if (binmethod =? "mean")%string then
    ret {| b_phase := ph;
           b_sap := nanmean (map t_sap w);
           b_saperr := mean_err (map t_saperr w);
           b_pdc := nanmean (map t_pdc w);
           b_pdcerr := mean_err (map t_pdcerr w);
           b_cbv := nanmean (map t_cbv w);
           b_cbverr := mean_err (map t_cbverr w);
           b_det := nanmean (map t_det w);
           b_deterr := mean_err (map t_deterr w) |}
  else if (binmethod =? "median")%string then
    ret {| b_phase := ph;
           b_sap := nanmedian (map t_sap w);
           b_saperr := mean_err (map t_saperr w);
           b_pdc := nanmedian (map t_pdc w);
           b_pdcerr := mean_err (map t_pdcerr w);
           b_cbv := nanmedian (map t_cbv w);
           b_cbverr := mean_err (map t_cbverr w);
           b_det := nanmedian (map t_det w);
           b_deterr := mean_err (map t_deterr w) |}
  else
    c1 <- clipped threshold niter (map t_sap w) (map t_saperr w) ;;
    c3 <- clipped threshold niter (map t_pdc w) (map t_pdcerr w) ;;
    c5 <- clipped threshold niter (map t_cbv w) (map t_cbverr w) ;;
    c7 <- clipped threshold niter (map t_det w) (map t_deterr w) ;;
    ret {| b_phase := ph;
           b_sap := c1;
           b_saperr := mean_err (map t_saperr w);
           b_pdc := c3;
           b_pdcerr := mean_err (map t_pdcerr w);
           b_cbv := c5;
           b_cbverr := mean_err (map t_cbverr w);
           b_det := c7;
           b_deterr := mean_err (map t_deterr w) |}.

(** One turn of [for i in range(len(rng))]. [sap3[i]], ..., [deterr3[i]]
    are the slots of [phsort[i]]; the last index, the wrap point, has
    none. *)
Definition bin_step (binmethod : string) (threshold : float) (niter : Z)
  (dt : float) (rng : list float) (phsort : list PTuple)
  (st : BinState) (i : nat) : result BinState :=
  let p := nth i rng 0 in
  if (p <? nb st * dt) || ((nb st + 1) * dt <=? p) then
    out <- match work st with
           | [] => ret (emitted st)
           | _ :: _ =>
               b <- reduce_bin binmethod threshold niter dt (nb st)
                      (work st) ;;
               ret (emitted st ++ [(work st, b)])
           end ;;
    ret {| nb := nb st + 1; work := []; emitted := out |}
  else
    match nth_error phsort i with
    | Some t =>
        ret {| nb := nb st; work := work st ++ [t]; emitted := emitted st |}
    | None => raise IndexError
    end.

Fixpoint bin_loop (binmethod : string) (threshold : float) (niter : Z)
  (dt : float) (rng : list float) (phsort : list PTuple)
  (st : BinState) (range : list nat) : result BinState :=
  match range with
  | [] => ret st
  | i :: range' =>
      st' <- bin_step binmethod threshold niter dt rng phsort st i ;;
      bin_loop binmethod threshold niter dt rng phsort st' range'
  end.

(** The [if bindata:] block: the buffers start with the first sorted
    sample in them, [dt = 1.0 / nbins], [nb = 0.0] and
    [rng = np.append(phase3, phase3[0] + 1.0)]. *)
Definition bin_phases (binmethod : string) (threshold : float) (niter : Z)
  (nbins : Z) (phsort : list PTuple)
  : result (list (list PTuple * PhaseBin)) :=
  match phsort with
  | [] => raise IndexError
  | t0 :: _ =>
      if (nbins =? 0)%Z then raise ZeroDivisionError
      else
        let dt := 1 / Np.float_of_Z nbins in
        let rng := map t_phase phsort ++ [t_phase t0 + 1] in
        st <- bin_loop binmethod threshold niter dt rng phsort
                {| nb := 0; work := [t0]; emitted := [] |}
                (seq 0 (List.length rng)) ;;
        ret (emitted st)
  end.

(** ** The FOLDED table (lines 422-437) and the whole pipeline *)

(** The columns of the FOLDED extension, all of format [E]. *)
Definition folded_row (cadenom : float) (b : PhaseBin) : FoldedRow :=
  {| PHASE := Np.to_f32 (b_phase b);
     SAP_FLUX := Np.div_scalar (b_sap b) cadenom;
     SAP_FLUX_ERR := Np.div_scalar (b_saperr b) cadenom;
     PDC_FLUX := Np.div_scalar (b_pdc b) cadenom;
     PDC_FLUX_ERR := Np.div_scalar (b_pdcerr b) cadenom;
     CBV_FLUX := Np.div_scalar (b_cbv b) cadenom;
     DET_FLUX := Np.div_scalar (b_det b) cadenom;
     DET_FLUX_ERR := Np.div_scalar (b_deterr b) cadenom |}.

(** The local arrays at the point where the output file is written:
    [phase1] (the PHASE column added to the light curve), the sorted
    tuples (columns [phase3], [sap3], ...), the bins and the FOLDED
    table. *)
Record Locals : Type := mkLocals {
  phase1 : list float;
  phsort : list PTuple;
  bins : option (list (list PTuple * PhaseBin));
  FOLDED : option (list FoldedRow)
}.

Definition kepfold_core (a : Args) : result Locals :=
  kept <- filter_rows (plottype a) (rejqual a) (table a) ;;
  let bjd0' := shift_bjd0 (bjd0 a) (bjdref a) in
  let phase1 := map (phase_of (bjdref a) bjd0' (period a))
                    (map barytime (table a)) in
  let ptuple := ptuple_of (bjdref a) bjd0' (period a) (cadenom a) kept in
  let phsort := sorted ptuple in
  bs <- (if bindata a
         then b <- bin_phases (binmethod a) (threshold a) (niter a)
                     (nbins a) phsort ;;
              ret (Some b)
         else ret None) ;;
  ret {| phase1 := phase1;
         phsort := phsort;
         bins := bs;
         FOLDED := option_map (map (fun e => folded_row (cadenom a) (snd e)))
                              bs |}.

End Binning.

(** ** WrapAroundExpander (lines 478-514) *)

Section Wrap.
Local Open Scope float_scope.

(** The column picked for display: [work = sap3] unless [plottype] is
    one of the three other names. *)
Definition plot_column (plottype : string) : PTuple -> float :=
  let w0 := t_sap in
  let w1 := if (plottype =? "pdc")%string then t_pdc else w0 in
  let w2 := if (plottype =? "cbv")%string then t_cbv else w1 in
  if (plottype =? "det")%string then t_det else w2.

(** First loop: for every index with [phase[i] > 0.5], [phase[i] - 1.0]
    goes to the end of [ptime] and [work[i]] to the end of [pout]. *)
Fixpoint wrap_down (phase work : list float) (range : list nat)
  (acc : list float * list float) : list float * list float :=
  match range with
  | [] => acc
  | i :: range' =>
      let p := nth i phase 0 in
      wrap_down phase work range'
        (if 0.5 <? p
         then (fst acc ++ [p - 1], snd acc ++ [nth i work 0])
         else acc)
  end.

(** Last loop: the same for [phase[i] <= 0.5] and [phase[i] + 1.0]. *)
Fixpoint wrap_up (phase work : list float) (range : list nat)
  (acc : list float * list float) : list float * list float :=
  match range with
  | [] => acc
  | i :: range' =>
      let p := nth i phase 0 in
      wrap_up phase work range'
        (if p <=? 0.5
         then (fst acc ++ [p + 1], snd acc ++ [nth i work 0])
         else acc)
  end.

(** The arrays [(ptime, pout)] made from [phase] and [work], two arrays
    of one length. *)
Definition wrap_around (phase work : list float)
  : list float * list float :=
  let range := seq 0 (List.length phase) in
  let lo := wrap_down phase work range ([], []) in
  let mid := (fst lo ++ phase, snd lo ++ work) in
  wrap_up phase work range mid.

(** A point of the series one cycle down, one cycle up. *)
Definition cycle_down (q : float * float) : float * float :=
  (fst q - 1, snd q).
Definition cycle_up (q : float * float) : float * float :=
  (fst q + 1, snd q).

End Wrap.

(** ** Reductions for running the pipeline on concrete inputs

    No general statement below depends on these: they give the examples
    and the concrete runs something to compute with. *)

Section SampleReductions.
Local Open Scope float_scope.

Definition fsum (l : list float) : float := fold_left add l 0.

Definition flen (l : list float) : float :=
  Np.float_of_Z (Z.of_nat (List.length l)).

Definition drop_nan (l : list float) : list float :=
  filter (fun x => negb (is_nan x)) l.

(** [np.nanmean]: the mean of the entries that are not NaN. *)
Definition np_nanmean (l : list float) : float :=
  fsum (drop_nan l) / flen (drop_nan l).

Fixpoint insert_float (x : float) (l : list float) : list float :=
  match l with
  | [] => [x]
  | y :: l' => if y <? x then y :: insert_float x l' else x :: l
  end.

(** [np.nanmedian]: the middle entry, or the mean of the two middle
    entries, of the sorted entries that are not NaN. *)
Definition np_nanmedian (l : list float) : float :=
  let v := fold_right insert_float [] (drop_nan l) in
  let n := List.length v in
  if Nat.even n
  then (nth (n / 2 - 1) v nan + nth (n / 2) v nan) / 2
  else nth (n / 2) v nan.

(** Modelled from the spec: [kepstat.mean_err], which is not part of the
    source at hand; the spec describes it as the standard deviation of
    the buffer over the square root of its length, non-finite entries
    ignored. *)
Definition spec_mean_err (l : list float) : float :=
  let v := filter is_finite l in
  let m := fsum v / flen v in
  let var := fsum (map (fun x => (x - m) * (x - m)) v) / flen v in
  sqrt var / sqrt (flen v).

(** The sigma-clip call as the file stands: the name [kepfunc] is not
    bound in the module. *)
Definition lsqclip_as_written (guess : float) (x y yerr : list float)
  (lo hi : float) (niter : Z) : result float :=
  raise NameError.

Definition as_written : Reductions :=
  {| nanmean := np_nanmean;
     nanmedian := np_nanmedian;
     mean_err := spec_mean_err;
     lsqclip_poly0 := lsqclip_as_written |}.

(** A table row whose four flux columns hold [flux] and whose error
    columns hold 1, observed at time [t] with a clean quality flag. *)
Definition flat_row (t flux : float) : Row :=
  mkRow t flux 1 flux 1 flux flux 1 0.

(** A call with [bjdref = 0], [cadenom = 1], [period = 1], [bjd0 = 0],
    binning by [binmethod] into [nbins] bins, on the SAP channel. *)
Definition unit_fold (binmethod : string) (nbins : Z) (tbl : list Row)
  : Args :=
  {| table := tbl; bjdref := 0; cadenom := 1; period := 1; bjd0 := 0;
     bindata := true; binmethod := binmethod; threshold := 1; niter := 5;
     nbins := nbins; rejqual := false; plottype := "sap" |}.


(** Four rows binned by the median into two bins, with [cadenom = 2]. *)
Definition binned_fold : Args :=
  {| table := [mkRow 0.125 8 1 16 4 24 32 6 0;
               mkRow 0.25 16 3 16 4 24 32 6 0;
               mkRow 0.625 4 1 16 4 24 32 6 0;
               mkRow 0.75 12 3 16 4 24 32 6 0];
     bjdref := 0; cadenom := 2; period := 1; bjd0 := 0;
     bindata := true; binmethod := "median"; threshold := 1; niter := 5;
     nbins := 2; rejqual := false; plottype := "sap" |}.

(** Four sorted tuples with uncertainties 1, 3, 1, 3. *)
Definition four_tuples : list PTuple :=
  [mkPTuple 0.125 4 1 8 1 12 1 16 1;
   mkPTuple 0.25 8 3 8 3 12 3 16 3;
   mkPTuple 0.625 2 1 8 1 12 1 16 1;
   mkPTuple 0.75 6 3 8 3 12 3 16 3].

(** Of each emitted bin, the centre phase and the SAP values found in
    the buffer when it was flushed. *)
Definition bin_contents (bs : list (list PTuple * PhaseBin))
  : list (float * list float) :=
  map (fun e => (b_phase (snd e), map t_sap (fst e))) bs.

End SampleReductions.

(** ** Vocabulary of the statements *)

Section Vocabulary.
Context {R : Reductions}.
Local Open Scope float_scope.

(** Phase order on tuples, and the tuples of phase [k]. *)
Definition phase_le (a b : PTuple) : Prop :=
  (t_phase a <=? t_phase b) = true.
Definition phase_not_nan (t : PTuple) : Prop := is_nan (t_phase t) = false.

(** The points copied one cycle down, and those copied one cycle up. *)
Definition past_half (q : float * float) : bool := 0.5 <? fst q.
Definition up_to_half (q : float * float) : bool := fst q <=? 0.5.

(** The four uncertainties of a bin come from [mean_err] on the error
    buffers flushed with it. *)
Definition errors_from_buffer (e : list PTuple * PhaseBin) : Prop :=
  b_saperr (snd e) = mean_err (map t_saperr (fst e)) /\
  b_pdcerr (snd e) = mean_err (map t_pdcerr (fst e)) /\
  b_cbverr (snd e) = mean_err (map t_cbverr (fst e)) /\
  b_deterr (snd e) = mean_err (map t_deterr (fst e)).

(** Slot 6 of a tuple repeats slot 2, the SAP uncertainty of the row it
    was made from. *)
Definition cbverr_is_saperr (tbl : list Row) (cadenom : float)
  (t : PTuple) : Prop :=
  t_cbverr t = t_saperr t /\
  exists r, In r tbl /\
    t_cbverr t = Np.div_scalar (Np.to_f32 (saperr r)) cadenom.



End Vocabulary.

(** ** Vocabulary of the further properties *)

Section FurtherVocabulary.
Local Open Scope float_scope.

(** A row whose quality flag is 0. *)
Definition clean (r : Row) : bool := (quality r =? 0)%Z.

(** None of the four channel names occurs in [plottype]. *)
Definition no_channel (plottype : string) : Prop :=
  contains "sap" plottype = false /\ contains "pdc" plottype = false /\
  contains "cbv" plottype = false /\ contains "det" plottype = false.

(** The eight kept lists have [n] entries each. *)
Definition kept_length (k : Kept) (n : nat) : Prop :=
  List.length (work1 k) = n /\ List.length (work2 k) = n /\
  List.length (work3 k) = n /\ List.length (work4 k) = n /\
  List.length (work5 k) = n /\ List.length (work6 k) = n /\
  List.length (work8 k) = n /\ List.length (work9 k) = n.

(** The sigma-clip call as the file stands: [kepfunc] is unbound, so
    every call ends with [NameError]. *)
Definition sigclip_unbound (R : Reductions) : Prop :=
  forall guess x y yerr lo hi n,
    lsqclip_poly0 guess x y yerr lo hi n = inl NameError.

(** The value of [nb] after [k] turns that flushed, and the centre phase
    of the bin flushed then. *)
Fixpoint nb_after (k : nat) : float :=
  match k with
  | O => 0
  | S k' => nb_after k' + 1
  end.

Definition centre (dt : float) (k : nat) : float := (nb_after k + 0.5) * dt.

(** The number of samples in the buffers of the emitted bins. *)
Definition samples_counted (bs : list (list PTuple * PhaseBin)) : nat :=
  list_sum (map (fun e => List.length (fst e)) bs).

(** What the bin loop keeps true after [m] turns of which [k] flushed:
    [nb] has been raised [k] times; the centres of the emitted bins are
    those of distinct earlier values of [nb], in increasing order; no
    emitted buffer is empty and all tuples come from the sorted ones;
    and every turn either flushed or added one tuple to the one the
    buffers started with. *)
Definition trace_inv (dt : float) (sorted_tuples : list PTuple)
  (k m : nat) (st : BinState) : Prop :=
  nb st = nb_after k
  /\ (exists ks,
        map (fun e => b_phase (snd e)) (emitted st) = map (centre dt) ks
        /\ StronglySorted lt ks /\ Forall (fun j => (j < k)%nat) ks)
  /\ Forall (fun e => fst e <> [] /\ incl (fst e) sorted_tuples) (emitted st)
  /\ incl (work st) sorted_tuples
  /\ (samples_counted (emitted st) + List.length (work st) + k = 1 + m)%nat
  /\ (List.length (emitted st) <= k)%nat.

(** Line 109-110: [infile.split('.')[0]], the part of [infile] before
    its first dot (all of it when it has none), and the default
    [outfile] made from it. *)
Definition dot : Ascii.ascii := Ascii.ascii_of_nat 46.

Fixpoint before_dot (s : string) : string :=
  match s with
  | EmptyString => EmptyString
  | String c s' =>
      if Ascii.eqb c dot then EmptyString else String c (before_dot s')
  end.

Definition outfile_of (outfile : option string) (infile : string) : string :=
  match outfile with
  | None => (before_dot infile ++ "-kepfold.fits")%string
  | Some name => name
  end.

End FurtherVocabulary.

(** * Properties *)

(** ** ValidityFilter *)

Section FilterFacts.
Local Open Scope float_scope.

Variables datacol errcol : Row -> float.
Variable rejqual : bool.

Lemma filter_step_retained k r :
  filter_step datacol errcol rejqual k r =
  if retained datacol errcol rejqual r then append_row k r else k.
Proof.
  unfold filter_step, retained.
  destruct (Np.isfinite (barytime r)); simpl; [|reflexivity].
  destruct (Np.isfinite (datacol r)); simpl; [|reflexivity].
  destruct (datacol r =? 0); simpl; [reflexivity|].
  destruct (Np.isfinite (errcol r)); simpl; [|reflexivity].
  destruct (0 <? errcol r); simpl; [|reflexivity].
  destruct rejqual; simpl; [|reflexivity].
  destruct (quality r =? 0)%Z; reflexivity.
Qed.

Lemma append_row_columns rows r :
  append_row (columns_of rows) r = columns_of (rows ++ [r]).
Proof.
  unfold append_row, columns_of; simpl.
  now rewrite !map_app.
Qed.

Lemma filter_loop_columns tbl : forall rows,
  fold_left (filter_step datacol errcol rejqual) tbl (columns_of rows) =
  columns_of (rows ++ filter (retained datacol errcol rejqual) tbl).
Proof.
  induction tbl as [|r tbl IH]; intros rows; simpl.
  - now rewrite app_nil_r.
  - rewrite filter_step_retained.
    destruct (retained datacol errcol rejqual r).
    + rewrite append_row_columns, IH, <- app_assoc. reflexivity.
    + apply IH.
Qed.

Lemma retained_spec r :
  retained datacol errcol rejqual r = true <->
  is_finite (barytime r) = true /\
  (is_finite (datacol r) = true /\ (datacol r =? 0) = false) /\
  (is_finite (errcol r) = true /\ (0 <? errcol r) = true) /\
  (rejqual = true -> quality r = 0%Z).
Proof.
  unfold retained, Np.isfinite.
  rewrite !andb_true_iff, orb_true_iff, negb_true_iff, Z.eqb_eq.
  split.
  - intros (((Ht & Hd) & He) & Hq). repeat split; try tauto.
    intros Hr. destruct Hq as [Hq|Hq]; [|exact Hq].
    rewrite Hr in Hq. discriminate.
  - intros (Ht & Hd & He & Hq). repeat split; try tauto.
    destruct rejqual; [right; now apply Hq | now left].
Qed.

End FilterFacts.

Lemma filter_rows_selected plottype rejqual tbl datacol errcol :
  select_columns plottype = Some (datacol, errcol) ->
  filter_rows plottype rejqual tbl =
    inr (columns_of (filter (retained datacol errcol rejqual) tbl)).
Proof.
  intros Hsel. unfold filter_rows. rewrite Hsel.
  destruct tbl as [|r tbl]; [reflexivity|].
  unfold ret. f_equal.
  exact (filter_loop_columns datacol errcol rejqual (r :: tbl) []).
Qed.

(** C6. With a channel selected by [plottype], the filter keeps exactly
    the rows whose time is finite, whose selected value is finite and not
    zero, whose selected uncertainty is finite and positive and, when
    [rejqual] is set, whose quality flag is 0. The eight kept lists are
    the columns of one and the same list of kept rows, in table order,
    and two rows that agree on the time, the selected value, the selected
    uncertainty and the flag are kept or dropped together, whatever their
    other channels hold (a NaN included). *)
Theorem validity_filter_selected_channel :
  forall (plottype : string) (rejqual : bool) (tbl : list Row)
         (datacol errcol : Row -> float),
    select_columns plottype = Some (datacol, errcol) ->
    filter_rows plottype rejqual tbl =
      inr (columns_of (filter (retained datacol errcol rejqual) tbl))
    /\ (forall r,
          retained datacol errcol rejqual r = true <->
          is_finite (barytime r) = true /\
          (is_finite (datacol r) = true /\ (datacol r =? 0)%float = false) /\
          (is_finite (errcol r) = true /\ (0 <? errcol r)%float = true) /\
          (rejqual = true -> quality r = 0%Z))
    /\ (forall r r',
          barytime r = barytime r' -> datacol r = datacol r' ->
          errcol r = errcol r' -> quality r = quality r' ->
          retained datacol errcol rejqual r =
          retained datacol errcol rejqual r').
Proof.
  intros plottype rejqual tbl datacol errcol Hsel.
  split; [|split].
  - now apply filter_rows_selected.
  - apply retained_spec.
  - intros r r' Ht Hd He Hq. unfold retained.
    now rewrite Ht, Hd, He, Hq.
Qed.

(** A run of the filter on the SAP channel with quality rejection: the
    first row has NaN in its PDC and detrended columns and is kept, the
    second has NaN in its SAP column, the third a raised flag. *)
Lemma validity_filter_selected_channel_witness :
  let r1 := mkRow 1 5 1 nan 1 3 nan 1 0 in
  let r2 := mkRow 2 nan 1 4 1 3 2 1 0 in
  let r3 := mkRow 3 5 1 4 1 3 2 1 8 in
  filter_rows "sap" true [r1; r2; r3] = inr (columns_of [r1]).
Proof.
  intros r1 r2 r3.
  destruct (validity_filter_selected_channel "sap" true [r1; r2; r3]
              sap saperr eq_refl) as [H _].
  rewrite H. vm_compute. reflexivity.
Defined.

(** ** PhaseMapper *)

Section PhaseFacts.




(** A float below 1 can still be stored as 1: ten milliseconds before
    an epoch, with a ten-day period, [phase1] is just under 1 and the
    [float32] phase is 1. *)
Example phase_float32_reaches_one :
  let p := phase_of 0 0 10 (-0x1p-23) in
  (p <? 1)%float = true /\ Np.to_f32 p = 1%float.
Proof. vm_compute. split; reflexivity. Qed.

End PhaseFacts.

(** ** Order of binary64 values *)

Section FloatOrder.
Local Open Scope float_scope.

Lemma SFcompare_swap x y :
  SFcompare x y = option_map CompOpp (SFcompare y x).
Proof.
  destruct x as [sx|sx| |sx mx ex], y as [sy|sy| |sy my ey]; simpl;
    try destruct sx; try destruct sy; try reflexivity.
  all: rewrite (Z.compare_antisym ey ex);
    destruct (ey ?= ex)%Z; simpl; try reflexivity;
    replace (Pos.compare_cont Eq mx my)
      with (CompOpp (Pos.compare_cont Eq my mx))
      by (rewrite Pos.compare_cont_antisym; reflexivity);
    destruct (Pos.compare_cont Eq my mx); reflexivity.
Qed.

Lemma Prim2SF_not_nan x : is_nan x = false -> Prim2SF x <> S754_nan.
Proof.
  intros H. unfold Prim2SF. rewrite H.
  destruct (is_zero x); [discriminate|].
  destruct (is_infinity x); [discriminate|].
  destruct (Z.frexp x) as [r e].
  destruct (shr_fexp _ _ _ _ _) as [s e'].
  destruct (shr_m s); discriminate.
Qed.

Lemma SFcompare_some x y :
  x <> S754_nan -> y <> S754_nan -> exists c, SFcompare x y = Some c.
Proof.
  intros Hx Hy.
  destruct x, y; simpl; try congruence; eexists; reflexivity.
Qed.

Lemma ltb_leb x y : (x <? y) = true -> (x <=? y) = true.
Proof.
  intros H. rewrite FloatAxioms.ltb_spec in H. rewrite FloatAxioms.leb_spec.
  unfold SFltb in H. unfold SFleb.
  destruct (SFcompare _ _) as [[]|]; congruence.
Qed.

Lemma not_ltb_leb x y :
  is_nan x = false -> is_nan y = false ->
  (y <? x) = false -> (x <=? y) = true.
Proof.
  intros Hx Hy H. rewrite FloatAxioms.ltb_spec in H. rewrite FloatAxioms.leb_spec.
  unfold SFltb in H. unfold SFleb.
  rewrite (SFcompare_swap (Prim2SF x)).
  destruct (SFcompare_some (Prim2SF y) (Prim2SF x)) as [c Hc];
    auto using Prim2SF_not_nan.
  rewrite Hc in *. destruct c; simpl; congruence.
Qed.





End FloatOrder.

(** ** PhaseSorter *)

Section SorterFacts.
Local Open Scope float_scope.

Lemma insert_sorted_perm x l : Permutation (x :: l) (insert_sorted x l).
Proof.
  induction l as [|y l IH]; simpl.
  - apply Permutation_refl.
  - destruct (t_phase y <? t_phase x).
    + eapply perm_trans; [apply perm_swap|]. now apply perm_skip.
    + apply Permutation_refl.
Qed.

Lemma sorted_perm l : Permutation l (sorted l).
Proof.
  induction l as [|x l IH]; simpl.
  - apply perm_nil.
  - eapply perm_trans; [apply perm_skip, IH | apply insert_sorted_perm].
Qed.

Lemma sorted_Forall (P : PTuple -> Prop) l :
  Forall P l -> Forall P (sorted l).
Proof.
  intros H. eapply Permutation_Forall; [apply sorted_perm | exact H].
Qed.

Lemma insert_sorted_hd x y l :
  phase_le y x -> HdRel phase_le y l -> HdRel phase_le y (insert_sorted x l).
Proof.
  intros Hyx Hl. destruct l as [|z l]; simpl.
  - now constructor.
  - destruct (t_phase z <? t_phase x); constructor; trivial.
    now inversion Hl.
Qed.

Lemma insert_sorted_Sorted x l :
  phase_not_nan x -> Forall phase_not_nan l ->
  Sorted phase_le l -> Sorted phase_le (insert_sorted x l).
Proof.
  intros Hx Hnan Hs. induction l as [|y l IH]; simpl.
  - repeat constructor.
  - inversion Hs as [|? ? Hs' Hhd]; subst.
    inversion Hnan as [|? ? Hy Hnan']; subst.
    destruct (t_phase y <? t_phase x) eqn:Hlt.
    + constructor; [now apply IH|].
      apply insert_sorted_hd; [|exact Hhd].
      now apply ltb_leb.
    + constructor; [exact Hs|]. constructor.
      now apply not_ltb_leb.
Qed.

Lemma sorted_Sorted l :
  Forall phase_not_nan l -> Sorted phase_le (sorted l).
Proof.
  induction l as [|x l IH]; intros Hnan; simpl.
  - constructor.
  - inversion Hnan; subst.
    apply insert_sorted_Sorted; auto using sorted_Forall.
Qed.



End SorterFacts.



(** ** WrapAroundExpander *)

Section WrapFacts.
Local Open Scope float_scope.

(** Index [length pre] of the two arrays of a series. *)
Lemma nth_series (pre : list (float * float)) q suf :
  nth (List.length pre) (map fst (pre ++ q :: suf)) 0 = fst q /\
  nth (List.length pre) (map snd (pre ++ q :: suf)) 0 = snd q.
Proof.
  rewrite !map_app; simpl.
  rewrite !app_nth2 by (rewrite length_map; lia).
  rewrite !length_map, Nat.sub_diag. now split.
Qed.

Lemma wrap_down_series suf : forall pre acc,
  wrap_down (map fst (pre ++ suf)) (map snd (pre ++ suf))
            (seq (List.length pre) (List.length suf)) acc =
  (fst acc ++ map fst (map cycle_down (filter past_half suf)),
   snd acc ++ map snd (map cycle_down (filter past_half suf))).
Proof.
  induction suf as [|q suf IH]; intros pre acc; simpl.
  - rewrite !app_nil_r. now destruct acc.
  - destruct (nth_series pre q suf) as [Hp Hw]. rewrite Hp, Hw.
    replace (pre ++ q :: suf) with ((pre ++ [q]) ++ suf)
      by (rewrite <- app_assoc; reflexivity).
    replace (S (List.length pre)) with (List.length (pre ++ [q]))
      by (rewrite length_app; simpl; lia).
    change (0.5 <? fst q) with (past_half q).
    rewrite IH.
    destruct (past_half q); simpl; [|reflexivity].
    now rewrite <- !app_assoc.
Qed.

Lemma wrap_up_series suf : forall pre acc,
  wrap_up (map fst (pre ++ suf)) (map snd (pre ++ suf))
          (seq (List.length pre) (List.length suf)) acc =
  (fst acc ++ map fst (map cycle_up (filter up_to_half suf)),
   snd acc ++ map snd (map cycle_up (filter up_to_half suf))).
Proof.
  induction suf as [|q suf IH]; intros pre acc; simpl.
  - rewrite !app_nil_r. now destruct acc.
  - destruct (nth_series pre q suf) as [Hp Hw]. rewrite Hp, Hw.
    replace (pre ++ q :: suf) with ((pre ++ [q]) ++ suf)
      by (rewrite <- app_assoc; reflexivity).
    replace (S (List.length pre)) with (List.length (pre ++ [q]))
      by (rewrite length_app; simpl; lia).
    change (fst q <=? 0.5) with (up_to_half q).
    rewrite IH.
    destruct (up_to_half q); simpl; [|reflexivity].
    now rewrite <- !app_assoc.
Qed.

End WrapFacts.

(** C7. For a series of points [(phase, value)], the arrays
    [(ptime, pout)] hold, in this order: a copy one cycle down of every
    point with phase above 0.5, the points themselves, and a copy one
    cycle up of every point with phase up to 0.5; each group is in the
    order of the series and every value is copied as it is. On phases
    0.1 and 0.6 with values [a] and [b] this gives
    (-0.4, b), (0.1, a), (0.6, b), (1.1, a). *)
Theorem wrap_around_layout :
  (forall pts : list (float * float),
     let out := map cycle_down (filter past_half pts) ++ pts
                ++ map cycle_up (filter up_to_half pts) in
     wrap_around (map fst pts) (map snd pts) = (map fst out, map snd out))
  /\ (forall a b : float,
        wrap_around [0.1; 0.6]%float [a; b] =
        ([-0.4; 0.1; 0.6; 1.1]%float, [b; a; b; a])).
Proof.
  split.
  - intros pts out. unfold wrap_around.
    rewrite length_map.
    pose proof (wrap_down_series pts [] ([], [])) as Hdown.
    pose proof (fun acc => wrap_up_series pts [] acc) as Hup.
    simpl in Hdown, Hup. rewrite Hdown, Hup. simpl.
    unfold out. now rewrite !map_app, !app_assoc.
  - intros a b. vm_compute. reflexivity.
Qed.

(** ** From the kept columns to the sorted tuples *)

Section TupleFacts.
Local Open Scope float_scope.

Lemma map_seq_nth {A B : Type} (g : A -> B) (d : A) (l : list A) :
  map (fun i => g (nth i l d)) (seq 0 (List.length l)) = map g l.
Proof.
  induction l as [|x l IH]; [reflexivity|].
  simpl. f_equal. rewrite <- seq_shift, map_map. exact IH.
Qed.

Lemma nth_map_in {A : Type} (f : A -> float) (d : A) (l : list A) i :
  (i < List.length l)%nat -> nth i (map f l) 0 = f (nth i l d).
Proof.
  intros Hi. rewrite (nth_indep _ 0 (f d)) by (now rewrite length_map).
  apply map_nth.
Qed.

(** The tuples built by index from the columns of a list of rows are the
    rows turned into tuples one by one. *)
Lemma ptuple_of_columns bjdref bjd0 period cadenom rows :
  ptuple_of bjdref bjd0 period cadenom (columns_of rows) =
  map (mk_ptuple bjdref bjd0 period cadenom) rows.
Proof.
  unfold ptuple_of, columns_of; simpl.
  rewrite !length_map.
  rewrite <- (map_seq_nth (mk_ptuple bjdref bjd0 period cadenom)
                (flat_row 0 0) rows).
  apply map_ext_in. intros i Hi. apply in_seq in Hi.
  assert (Hlt : (i < List.length rows)%nat) by lia.
  rewrite !map_map.
  rewrite !(nth_map_in _ (flat_row 0 0)) by exact Hlt.
  reflexivity.
Qed.

(** What comes out of the filter is the columns of some rows of the
    table. *)
Lemma filter_rows_columns plottype rejqual tbl k :
  filter_rows plottype rejqual tbl = inr k ->
  exists rows, k = columns_of rows /\ incl rows tbl.
Proof.
  unfold filter_rows. destruct tbl as [|r tbl].
  - intros H. injection H as <-. exists []. split; [reflexivity|].
    apply incl_refl.
  - destruct (select_columns plottype) as [[datacol errcol]|];
      [|discriminate].
    intros H. injection H as <-.
    exists (filter (retained datacol errcol rejqual) (r :: tbl)). split.
    + exact (filter_loop_columns datacol errcol rejqual (r :: tbl) []).
    + apply incl_filter.
Qed.

End TupleFacts.

(** ** BinAggregator: what every flushed bin satisfies *)

Section BinInvariant.
Context {R : Reductions}.
Variables (binmethod : string) (threshold : float) (niter : Z) (dt : float).
Variables (rng : list float) (sorted_tuples : list PTuple).

(** [Q] holds of every sorted tuple; [P] holds of a flushed bin as soon
    as [Q] holds of the tuples in its buffer. *)
Variable Q : PTuple -> Prop.
Variable P : list PTuple * PhaseBin -> Prop.
Hypothesis Q_sorted : Forall Q sorted_tuples.
Hypothesis P_flush :
  forall nb w b,
    Forall Q w ->
    reduce_bin binmethod threshold niter dt nb w = inr b -> P (w, b).

Lemma bin_step_inv st i st' :
  Forall Q (work st) -> Forall P (emitted st) ->
  bin_step binmethod threshold niter dt rng sorted_tuples st i = inr st' ->
  Forall Q (work st') /\ Forall P (emitted st').
Proof.
  intros HQ HP. unfold bin_step.
  destruct (_ || _)%bool.
  - destruct (work st) as [|t w] eqn:Hw; unfold bind, ret.
    + intros H. injection H as <-. simpl. now split.
    + destruct (reduce_bin _ _ _ _ _ _) as [e|b] eqn:Hb; [discriminate|].
      intros H. injection H as <-. simpl. split; [constructor|].
      apply Forall_app. split; [exact HP|].
      constructor; [|constructor].
      now apply (P_flush (nb st)).
  - destruct (nth_error sorted_tuples i) as [t|] eqn:Ht; [|discriminate].
    unfold ret. intros H. injection H as <-. simpl. split; [|exact HP].
    apply Forall_app. split; [exact HQ|].
    constructor; [|constructor].
    apply nth_error_In in Ht.
    now apply (proj1 (Forall_forall Q sorted_tuples) Q_sorted).
Qed.

Lemma bin_loop_inv range : forall st st',
  Forall Q (work st) -> Forall P (emitted st) ->
  bin_loop binmethod threshold niter dt rng sorted_tuples st range
    = inr st' ->
  Forall Q (work st') /\ Forall P (emitted st').
Proof.
  induction range as [|i range IH]; intros st st' HQ HP; simpl.
  - unfold ret. intros H. injection H as <-. now split.
  - unfold bind.
    destruct (bin_step _ _ _ _ _ _ st i) as [e|st1] eqn:Hstep;
      [discriminate|].
    destruct (bin_step_inv st i st1 HQ HP Hstep) as [HQ1 HP1].
    now apply IH.
Qed.

End BinInvariant.

Section BinFacts.
Context {R : Reductions}.

Lemma bin_phases_inv (Q : PTuple -> Prop)
  (P : list PTuple * PhaseBin -> Prop)
  binmethod threshold niter nbins sorted_tuples bs :
  Forall Q sorted_tuples ->
  (forall dt nb w b,
     Forall Q w ->
     reduce_bin binmethod threshold niter dt nb w = inr b -> P (w, b)) ->
  bin_phases binmethod threshold niter nbins sorted_tuples = inr bs ->
  Forall P bs.
Proof.
  intros HQ HP. unfold bin_phases.
  destruct sorted_tuples as [|t0 l] eqn:Hl; [discriminate|].
  destruct (nbins =? 0)%Z; [discriminate|].
  unfold bind, ret.
  destruct (bin_loop _ _ _ _ _ _ _ _) as [e|st] eqn:Hloop; [discriminate|].
  intros H. injection H as <-.
  eapply (bin_loop_inv binmethod threshold niter _ _ (t0 :: l) Q P HQ)
    in Hloop.
  - apply Hloop.
  - intros nb0 w b. apply HP.
  - simpl. constructor; [now inversion HQ | constructor].
  - constructor.
Qed.

(** Whatever the method, a flushed bin takes its four uncertainties from
    [mean_err] on the whole error buffers. *)
Lemma reduce_bin_errors binmethod threshold niter dt nb0 w b :
  reduce_bin binmethod threshold niter dt nb0 w = inr b ->
  b_saperr b = mean_err (map t_saperr w) /\
  b_pdcerr b = mean_err (map t_pdcerr w) /\
  b_cbverr b = mean_err (map t_cbverr w) /\
  b_deterr b = mean_err (map t_deterr w).
Proof.
  unfold reduce_bin.
  destruct (binmethod =? "mean")%string;
    [|destruct (binmethod =? "median")%string].
  - unfold ret. intros H. injection H as <-. simpl. auto.
  - unfold ret. intros H. injection H as <-. simpl. auto.
  - unfold bind, ret.
    destruct (clipped _ _ (map t_sap w) _); [discriminate|].
    destruct (clipped _ _ (map t_pdc w) _); [discriminate|].
    destruct (clipped _ _ (map t_cbv w) _); [discriminate|].
    destruct (clipped _ _ (map t_det w) _); [discriminate|].
    intros H. injection H as <-. simpl. auto.
Qed.

(** A turn whose phase lies outside the current bin moves on by one bin
    and leaves the buffers empty: the tuple at that index is not
    appended. *)
Lemma bin_step_outside binmethod threshold niter dt rng sorted_tuples
  st i st' :
  ((nth i rng 0 <? nb st * dt) || ((nb st + 1) * dt <=? nth i rng 0))%float
    = true ->
  bin_step binmethod threshold niter dt rng sorted_tuples st i = inr st' ->
  work st' = [] /\ nb st' = (nb st + 1)%float.
Proof.
  intros Hout. unfold bin_step. rewrite Hout. unfold bind, ret.
  destruct (work st) as [|t w].
  - intros H. injection H as <-. now split.
  - destruct (reduce_bin _ _ _ _ _ _) as [e|b]; [discriminate|].
    intros H. injection H as <-. now split.
Qed.

(** The whole pipeline, stage by stage. *)
Lemma kepfold_core_stages a l :
  kepfold_core a = inr l ->
  let bjd0' := shift_bjd0 (bjd0 a) (bjdref a) in
  exists rows,
    incl rows (table a)
    /\ phsort l =
       sorted (map (mk_ptuple (bjdref a) bjd0' (period a) (cadenom a)) rows)
    /\ phase1 l =
       map (phase_of (bjdref a) bjd0' (period a)) (map barytime (table a))
    /\ (if bindata a
        then exists bs,
               bin_phases (binmethod a) (threshold a) (niter a) (nbins a)
                 (phsort l) = inr bs
               /\ bins l = Some bs
        else bins l = None)
    /\ FOLDED l =
       option_map (map (fun e => folded_row (cadenom a) (snd e))) (bins l).
Proof.
  unfold kepfold_core, bind, ret.
  destruct (filter_rows _ _ _) as [e|k] eqn:Hk; [discriminate|].
  destruct (filter_rows_columns _ _ _ _ Hk) as (rows & -> & Hincl).
  rewrite ptuple_of_columns.
  destruct (bindata a).
  - destruct (bin_phases _ _ _ _ _) as [e|bs] eqn:Hbs; [discriminate|].
    intros H. injection H as <-. simpl. exists rows.
    repeat split; trivial. now exists bs.
  - intros H. injection H as <-. simpl. exists rows.
    repeat split; trivial.
Qed.

End BinFacts.

(** ** BinAggregator and FOLDED table: the claims *)

Section PipelineClaims.
Context {R : Reductions}.

(** C8. Whatever [binmethod] is (mean, median, or anything else, which
    selects sigma clipping), every bin that is emitted reports, for each
    of the four channels, [mean_err] of the whole error buffer that was
    flushed with it: no median-based error, and nothing removed by the
    clipping. *)
Theorem uniform_bin_uncertainty :
  forall (binmethod : string) (threshold : float) (niter nbins : Z)
         (sorted_tuples : list PTuple) (bs : list (list PTuple * PhaseBin)),
    bin_phases binmethod threshold niter nbins sorted_tuples = inr bs ->
    Forall errors_from_buffer bs.
Proof.
  intros binmethod threshold niter nbins sorted_tuples bs Hbs.
  apply (bin_phases_inv (fun _ => True) errors_from_buffer
           binmethod threshold niter nbins sorted_tuples bs).
  - apply Forall_forall. trivial.
  - intros dt nb0 w b _ Hb. unfold errors_from_buffer. simpl.
    exact (reduce_bin_errors _ _ _ _ _ _ _ Hb).
  - exact Hbs.
Qed.

(** C9. In every sorted tuple the CBV uncertainty (slot 6) is the SAP
    uncertainty (slot 2) of the same sample, that is the [saperr] value of
    a table row after the cast and the division; and the CBV uncertainty
    of every bin is [mean_err] of SAP uncertainties, equal to the SAP
    uncertainty of the bin. *)
Theorem cbv_uncertainty_is_sap_uncertainty :
  forall (a : Args) (l : Locals),
    kepfold_core a = inr l ->
    Forall (cbverr_is_saperr (table a) (cadenom a)) (phsort l)
    /\ (forall bs,
          bins l = Some bs ->
          Forall (fun e =>
                    b_cbverr (snd e) = mean_err (map t_saperr (fst e))
                    /\ b_cbverr (snd e) = b_saperr (snd e)) bs).
Proof.
  intros a l Hl.
  destruct (kepfold_core_stages a l Hl)
    as (rows & Hincl & Hsort & _ & Hbins & _).
  assert (HQ : Forall (cbverr_is_saperr (table a) (cadenom a)) (phsort l)).
  { rewrite Hsort. apply sorted_Forall, Forall_map, Forall_forall.
    intros r Hr. split; [reflexivity|].
    exists r. split; [now apply Hincl | reflexivity]. }
  split; [exact HQ|].
  intros bs Hsome. destruct (bindata a).
  - destruct Hbins as (bs' & Hbs' & Hsome').
    rewrite Hsome in Hsome'. injection Hsome' as <-.
    eapply bin_phases_inv; [exact HQ| |exact Hbs'].
    intros dt nb0 w b Hw Hb. simpl.
    destruct (reduce_bin_errors _ _ _ _ _ _ _ Hb) as (Hs & _ & Hc & _).
    assert (Hmap : map t_cbverr w = map t_saperr w).
    { apply map_ext_in. intros t Ht.
      now apply (proj1 (Forall_forall _ w) Hw). }
    rewrite Hc, Hs, Hmap. now split.
  - rewrite Hbins in Hsome. discriminate.
Qed.



End PipelineClaims.

(** ** Concrete runs *)

Section Runs.
Local Open Scope float_scope.



Lemma uniform_bin_uncertainty_witness :
  exists bs,
    bin_phases (R := as_written) "median" 1 5 2 four_tuples = inr bs
    /\ List.length bs = 2%nat
    /\ Forall (errors_from_buffer (R := as_written)) bs.
Proof.
  eexists. split; [vm_compute; reflexivity|]. split; [reflexivity|].
  apply (uniform_bin_uncertainty (R := as_written) "median" 1 5 2
           four_tuples).
  vm_compute. reflexivity.
Defined.

Lemma cbv_uncertainty_is_sap_uncertainty_witness :
  exists l,
    kepfold_core (R := as_written) binned_fold = inr l
    /\ map t_cbverr (phsort l) = [0.5; 1.5; 0.5; 1.5]
    /\ Forall (cbverr_is_saperr (table binned_fold) 2) (phsort l)
    /\ (forall bs,
          bins l = Some bs ->
          Forall (fun e =>
                    b_cbverr (snd e) =
                      mean_err (Reductions := as_written)
                        (map t_saperr (fst e))
                    /\ b_cbverr (snd e) = b_saperr (snd e)) bs).
Proof.
  eexists. split; [vm_compute; reflexivity|]. split; [reflexivity|].
  apply (cbv_uncertainty_is_sap_uncertainty (R := as_written) binned_fold).
  vm_compute. reflexivity.
Defined.


(** Sigma clipping as the file stands ends the run at the first flush. *)
Example sigclip_as_written :
  kepfold_core (R := as_written)
    (unit_fold "sigclip" 2 [flat_row 0.125 10; flat_row 0.625 20])
  = inl NameError.
Proof. vm_compute. reflexivity. Qed.

End Runs.

Section TraversalRuns.
Context {R : Reductions}.
Local Open Scope float_scope.

(** C1, on the code. Two bins and three samples with phases 0.125, 0.625
    and 0.75 and SAP values 10, 20 and 30. The buffer starts with the
    first sample in it and the first turn appends it again; the sample at
    0.625 lies outside bin 0, so its turn flushes bin 0 and moves to
    bin 1, and the sample itself goes into no buffer; the bin centred at
    0.75 holds the value 30 alone. *)
Theorem traversal_drops_flushing_sample :
  match kepfold_core
          (unit_fold "mean" 2
             [flat_row 0.125 10; flat_row 0.625 20; flat_row 0.75 30])
  with
  | inr l =>
      map (fun t => (t_phase t, t_sap t)) (phsort l) =
        [(0.125, 10); (0.625, 20); (0.75, 30)]
      /\ option_map bin_contents (bins l) =
         Some [(0.25, [10; 10]); (0.75, [30])]
  | inl _ => False
  end.
Proof. vm_compute. split; reflexivity. Qed.

(** C2, on the code. Four bins and three samples with phases 0.375,
    0.625 and 0.875: one bin is emitted, centred at 0.125, an interval
    that holds none of the three phases; it counts one sample where three
    were filtered. Each turn moves on by one bin only and uses up its
    sample, so the bin index stays behind the phases. *)
Theorem binning_loses_samples :
  match kepfold_core
          (unit_fold "mean" 4
             [flat_row 0.375 10; flat_row 0.625 20; flat_row 0.875 30])
  with
  | inr l =>
      map t_phase (phsort l) = [0.375; 0.625; 0.875]
      /\ option_map bin_contents (bins l) = Some [(0.125, [10])]
      /\ forallb (fun t => negb ((0 <=? t_phase t) && (t_phase t <? 0.25)))
           (phsort l) = true
      /\ option_map (fun bs => list_sum (map (fun e => List.length (fst e)) bs))
           (bins l) = Some 1%nat
      /\ List.length (phsort l) = 3%nat
  | inl _ => False
  end.
Proof. vm_compute. repeat split. Qed.

End TraversalRuns.

(** * Further properties *)

(** ** ValidityFilter: errors, quality rejection, lengths *)

Section FilterMore.
Local Open Scope float_scope.

Lemma select_columns_none plottype :
  select_columns plottype = None <-> no_channel plottype.
Proof.
  unfold select_columns, no_channel.
  destruct (contains "sap" plottype), (contains "pdc" plottype),
    (contains "cbv" plottype), (contains "det" plottype);
    split; intros H; try discriminate; try reflexivity;
    try (repeat split; reflexivity);
    destruct H as (H1 & H2 & H3 & H4); discriminate.
Qed.

(** X1. The filter raises exactly when the table has a row and
    [plottype] names none of the four channels, and what it raises is
    [UnboundLocalError]; on an empty table it raises nothing, whatever
    [plottype] is. *)
Theorem filter_rows_error_iff :
  forall (plottype : string) (rejqual : bool) (tbl : list Row) (e : exn),
    filter_rows plottype rejqual tbl = inl e <->
    e = UnboundLocalError /\ tbl <> [] /\ no_channel plottype.
Proof.
  intros plottype rejqual tbl e. unfold filter_rows.
  destruct tbl as [|r tbl].
  - split; [discriminate|]. intros (_ & H & _). now elim H.
  - destruct (select_columns plottype) as [[datacol errcol]|] eqn:Hsel.
    + split; [discriminate|]. intros (_ & _ & Hno).
      apply select_columns_none in Hno. congruence.
    + unfold raise. split.
      * intros H. injection H as <-.
        split; [reflexivity|]. split; [discriminate|].
        now apply select_columns_none.
      * intros (-> & _). reflexivity.
Qed.

Lemma filter_rows_error_kind plottype rejqual tbl e :
  filter_rows plottype rejqual tbl = inl e -> e = UnboundLocalError.
Proof.
  unfold filter_rows. destruct tbl as [|r tbl]; [discriminate|].
  destruct (select_columns plottype) as [[datacol errcol]|]; [discriminate|].
  unfold raise. intros H. now injection H as <-.
Qed.

Lemma retained_rejqual datacol errcol r :
  retained datacol errcol true r =
  retained datacol errcol false r && clean r.
Proof.
  unfold retained, clean. simpl. now rewrite andb_true_r.
Qed.

Lemma filter_filter {A : Type} (f g : A -> bool) (l : list A) :
  filter g (filter f l) = filter (fun x => f x && g x) l.
Proof.
  induction l as [|x l IH]; [reflexivity|].
  simpl. destruct (f x); simpl; [|exact IH].
  destruct (g x); now rewrite IH.
Qed.

(** X2. Quality rejection is the plain filter followed by the removal of
    the rows with a raised flag: the rows kept with [rejqual] set are the
    rows kept without it whose flag is 0, in the same order. *)
Theorem quality_rejection_after_filter :
  forall (plottype : string) (tbl : list Row)
         (datacol errcol : Row -> float),
    select_columns plottype = Some (datacol, errcol) ->
    exists rows,
      filter_rows plottype false tbl = inr (columns_of rows)
      /\ filter_rows plottype true tbl = inr (columns_of (filter clean rows)).
Proof.
  intros plottype tbl datacol errcol Hsel.
  exists (filter (retained datacol errcol false) tbl).
  rewrite !(filter_rows_selected _ _ _ _ _ Hsel). split; [reflexivity|].
  rewrite filter_filter. do 2 f_equal.
  apply filter_ext. intros r. apply retained_rejqual.
Qed.

Lemma quality_rejection_after_filter_witness :
  let r1 := mkRow 1 5 1 4 1 3 2 1 0 in
  let r2 := mkRow 2 6 1 4 1 3 2 1 16 in
  let r3 := mkRow 3 7 1 4 1 3 2 1 0 in
  exists rows,
    filter_rows "pdc" false [r1; r2; r3] = inr (columns_of rows)
    /\ filter_rows "pdc" true [r1; r2; r3] =
       inr (columns_of (filter clean rows)).
Proof.
  intros r1 r2 r3.
  apply (quality_rejection_after_filter "pdc" [r1; r2; r3] pdc pdcerr).
  reflexivity.
Defined.

Lemma columns_of_length rows : kept_length (columns_of rows) (List.length rows).
Proof.
  unfold kept_length, columns_of; simpl.
  rewrite !length_map. repeat split.
Qed.

(** X3. When the filter returns, its eight lists have one and the same
    length, at most the number of table rows: no index of the loop that
    builds [ptuple] is out of range. *)
Theorem filter_rows_lengths :
  forall (plottype : string) (rejqual : bool) (tbl : list Row) (k : Kept),
    filter_rows plottype rejqual tbl = inr k ->
    exists n, kept_length k n /\ (n <= List.length tbl)%nat.
Proof.
  intros plottype rejqual tbl k Hk. unfold filter_rows in Hk.
  destruct tbl as [|r tbl].
  - injection Hk as <-. exists 0%nat. split; [repeat split | apply le_n].
  - destruct (select_columns plottype) as [[datacol errcol]|];
      [|discriminate].
    assert (Hcols :
      k = columns_of (filter (retained datacol errcol rejqual) (r :: tbl))).
    { injection Hk as Hk. rewrite <- Hk.
      exact (filter_loop_columns datacol errcol rejqual (r :: tbl) []). }
    rewrite Hcols.
    exists (List.length (filter (retained datacol errcol rejqual) (r :: tbl))).
    split; [apply columns_of_length | apply filter_length_le].
Qed.

Lemma filter_rows_lengths_witness :
  let r1 := mkRow 1 5 1 nan 1 3 nan 1 0 in
  let r2 := mkRow 2 nan 1 4 1 3 2 1 0 in
  exists n, kept_length (columns_of [r1]) n /\ (n <= 2)%nat.
Proof.
  intros r1 r2.
  apply (filter_rows_lengths "sap" true [r1; r2] (columns_of [r1])).
  vm_compute. reflexivity.
Defined.

End FilterMore.

(** ** PhaseSorter: sorted input, and the sorted series of the pipeline *)

Section SorterMore.
Local Open Scope float_scope.

Lemma leb_not_ltb x y : (x <=? y) = true -> (y <? x) = false.
Proof.
  intros H. rewrite FloatAxioms.leb_spec in H. rewrite FloatAxioms.ltb_spec.
  unfold SFleb in H. unfold SFltb.
  rewrite (SFcompare_swap (Prim2SF y)).
  destruct (SFcompare (Prim2SF x) (Prim2SF y)) as [[]|];
    simpl; congruence.
Qed.

Lemma insert_sorted_front x l :
  HdRel phase_le x l -> insert_sorted x l = x :: l.
Proof.
  intros H. destruct l as [|y l]; [reflexivity|]. simpl.
  inversion H as [|? ? Hxy]; subst.
  now rewrite (leb_not_ltb _ _ Hxy).
Qed.

Lemma sorted_fixed l : Sorted phase_le l -> sorted l = l.
Proof.
  induction 1 as [|x l Hs IH Hhd]; [reflexivity|].
  simpl. rewrite IH. now apply insert_sorted_front.
Qed.

(** X4. Sorting leaves a list that is in phase order as it is, so when
    no phase is NaN sorting twice gives what sorting once gives. *)
Theorem sorted_idempotent :
  forall ptuple : list PTuple,
    Forall phase_not_nan ptuple ->
    sorted (sorted ptuple) = sorted ptuple.
Proof.
  intros ptuple Hnan. apply sorted_fixed. now apply sorted_Sorted.
Qed.

Lemma sorted_idempotent_witness :
  let t p v := mkPTuple p v 1 v 1 v 1 v 1 in
  let ptuple := [t 0.75 1; t 0.5 2; t 0.25 3; t 0.5 4] in
  sorted (sorted ptuple) = sorted ptuple.
Proof.
  intros t ptuple. apply (sorted_idempotent ptuple).
  repeat constructor.
Defined.

End SorterMore.

Section SeriesMore.
Context {R : Reductions}.

(** X5. With a channel selected, when the pipeline returns, the sorted
    series holds the kept rows, each turned into a tuple and each once,
    while [phase1] has one entry for every row of the table, kept or
    not. *)
Theorem sorted_series_is_kept_rows :
  forall (a : Args) (l : Locals) (datacol errcol : Row -> float),
    select_columns (plottype a) = Some (datacol, errcol) ->
    kepfold_core a = inr l ->
    let kept := filter (retained datacol errcol (rejqual a)) (table a) in
    Permutation
      (map (mk_ptuple (bjdref a) (shift_bjd0 (bjd0 a) (bjdref a))
              (period a) (cadenom a)) kept)
      (phsort l)
    /\ List.length (phsort l) = List.length kept
    /\ List.length (phase1 l) = List.length (table a).
Proof.
  intros a l datacol errcol Hsel Hl kept.
  unfold kepfold_core in Hl.
  rewrite (filter_rows_selected _ _ _ _ _ Hsel) in Hl.
  unfold bind, ret in Hl. rewrite ptuple_of_columns in Hl.
  fold kept in Hl.
  assert (Hshape :
    phsort l =
      sorted (map (mk_ptuple (bjdref a) (shift_bjd0 (bjd0 a) (bjdref a))
                     (period a) (cadenom a)) kept)
    /\ phase1 l =
       map (phase_of (bjdref a) (shift_bjd0 (bjd0 a) (bjdref a)) (period a))
           (map barytime (table a))).
  { destruct (bindata a).
    - destruct (bin_phases _ _ _ _ _) as [e|bs]; [discriminate|].
      injection Hl as <-. now split.
    - injection Hl as <-. now split. }
  destruct Hshape as [Hs Hp]. rewrite Hs, Hp. split; [apply sorted_perm|].
  split.
  - rewrite <- (Permutation_length (sorted_perm _)). apply length_map.
  - now rewrite !length_map.
Qed.

End SeriesMore.

Lemma sorted_series_is_kept_rows_witness :
  exists l,
    kepfold_core (R := as_written) binned_fold = inr l
    /\ List.length (phsort l) = 4%nat
    /\ List.length (phase1 l) = 4%nat.
Proof.
  eexists. split; [vm_compute; reflexivity|].
  destruct (sorted_series_is_kept_rows (R := as_written) binned_fold _
              sap saperr eq_refl eq_refl) as (_ & Hn & Hp).
  split; [exact Hn | exact Hp].
Defined.

(** ** BinAggregator: which exceptions, and when *)

Section BinErrors.
Context {R : Reductions}.
Local Open Scope float_scope.

Lemma insert_sorted_cons x l : exists t l', insert_sorted x l = t :: l'.
Proof.
  destruct l as [|y l]; simpl; [now eexists; eexists|].
  destruct (t_phase y <? t_phase x); now eexists; eexists.
Qed.

Lemma sorted_nil_iff l : sorted l = [] <-> l = [].
Proof.
  split; [|now intros ->].
  destruct l as [|x l]; [reflexivity|]. simpl.
  destruct (insert_sorted_cons x (sorted l)) as (t & l' & ->). discriminate.
Qed.

(** X6. With binning on and a channel selected: when the filter keeps no
    row the run ends with [IndexError] (the read of [sap3[0]]), and when
    it keeps some row and [nbins] is 0 it ends with
    [ZeroDivisionError]. *)
Theorem binning_without_samples_or_bins :
  forall (a : Args) (datacol errcol : Row -> float),
    select_columns (plottype a) = Some (datacol, errcol) ->
    bindata a = true ->
    let kept := filter (retained datacol errcol (rejqual a)) (table a) in
    (kept = [] -> kepfold_core a = inl IndexError)
    /\ (kept <> [] -> nbins a = 0%Z ->
        kepfold_core a = inl ZeroDivisionError).
Proof.
  intros a datacol errcol Hsel Hbin kept.
  unfold kepfold_core.
  rewrite (filter_rows_selected _ _ _ _ _ Hsel). fold kept.
  unfold bind, ret. rewrite ptuple_of_columns, Hbin. split.
  - intros Hk. rewrite Hk. reflexivity.
  - intros Hne Hz. unfold bin_phases.
    destruct (sorted (map (mk_ptuple (bjdref a)
                             (shift_bjd0 (bjd0 a) (bjdref a))
                             (period a) (cadenom a)) kept))
      as [|t0 ts] eqn:Hs.
    + apply (proj1 (sorted_nil_iff _)) in Hs.
      apply map_eq_nil in Hs. contradiction.
    + rewrite Hz. reflexivity.
Qed.

End BinErrors.

(** All three rows have a SAP flux of 0 and are dropped; binning then
    has nothing to start from. *)
Lemma binning_without_samples_or_bins_witness :
  kepfold_core (R := as_written)
    (unit_fold "mean" 2 [flat_row 1 0; flat_row 2 0; flat_row 3 0])
  = inl IndexError.
Proof.
  apply (binning_without_samples_or_bins (R := as_written)
           (unit_fold "mean" 2 [flat_row 1 0; flat_row 2 0; flat_row 3 0])
           sap saperr eq_refl eq_refl).
  reflexivity.
Defined.

Section BinErrorKinds.
Context {R : Reductions}.
Local Open Scope float_scope.

Variables (binmethod : string) (threshold : float) (niter : Z) (dt : float).
Variables (rng : list float) (sorted_tuples : list PTuple).
Hypothesis plain_method : binmethod = "mean"%string \/ binmethod = "median"%string.

Lemma reduce_bin_plain nb0 w :
  exists b, reduce_bin binmethod threshold niter dt nb0 w = inr b.
Proof.
  unfold reduce_bin.
  destruct plain_method as [-> | ->]; simpl; eexists; reflexivity.
Qed.

Lemma bin_step_plain st i e :
  bin_step binmethod threshold niter dt rng sorted_tuples st i = inl e ->
  e = IndexError.
Proof.
  unfold bin_step. destruct (_ || _)%bool.
  - destruct (work st) as [|t w]; unfold bind, ret; [discriminate|].
    destruct (reduce_bin_plain (nb st) (t :: w)) as [b ->]. discriminate.
  - destruct (nth_error sorted_tuples i); [discriminate|].
    unfold raise. intros H. now injection H as <-.
Qed.

Lemma bin_loop_plain range : forall st e,
  bin_loop binmethod threshold niter dt rng sorted_tuples st range = inl e ->
  e = IndexError.
Proof.
  induction range as [|i range IH]; intros st e; simpl; [discriminate|].
  unfold bind.
  destruct (bin_step _ _ _ _ _ _ st i) as [e'|st'] eqn:Hstep.
  - intros H. injection H as <-. now apply (bin_step_plain st i).
  - apply IH.
Qed.

End BinErrorKinds.

Section PipelineErrorKinds.
Context {R : Reductions}.

(** X7. With the mean or the median as the method, the pipeline never
    ends with [NameError]: what it can raise is [UnboundLocalError] from
    the filter and, with binning on, [IndexError], or
    [ZeroDivisionError] when [nbins] is 0. *)
Theorem plain_methods_error_kinds :
  forall (a : Args) (e : exn),
    binmethod a = "mean"%string \/ binmethod a = "median"%string ->
    kepfold_core a = inl e ->
    e = UnboundLocalError
    \/ (bindata a = true
        /\ (e = IndexError \/ (e = ZeroDivisionError /\ nbins a = 0%Z))).
Proof.
  intros a e Hm. unfold kepfold_core, bind.
  destruct (filter_rows _ _ _) as [e0|k] eqn:Hk.
  - intros H. injection H as <-. left.
    now apply filter_rows_error_kind in Hk.
  - destruct (bindata a); [|discriminate].
    destruct (bin_phases _ _ _ _ _) as [e1|bs] eqn:Hbs; [|discriminate].
    intros H. injection H as <-. right. split; [reflexivity|].
    unfold bin_phases in Hbs.
    destruct (sorted (ptuple_of (bjdref a) (shift_bjd0 (bjd0 a) (bjdref a))
                        (period a) (cadenom a) k)) as [|t0 ts].
    + injection Hbs as <-. now left.
    + destruct (nbins a =? 0)%Z eqn:Hz.
      * injection Hbs as <-. right. split; [reflexivity|].
        now apply Z.eqb_eq.
      * unfold bind in Hbs.
        destruct (bin_loop _ _ _ _ _ _ _ _) as [e2|st] eqn:Hloop;
          [|discriminate].
        injection Hbs as <-. left.
        now apply (bin_loop_plain _ _ _ _ _ _ Hm _ _ _ Hloop).
Qed.

End PipelineErrorKinds.

Lemma plain_methods_error_kinds_witness :
  ZeroDivisionError = UnboundLocalError
  \/ (true = true
      /\ (ZeroDivisionError = IndexError
          \/ (ZeroDivisionError = ZeroDivisionError /\ 0%Z = 0%Z))).
Proof.
  apply (plain_methods_error_kinds (R := as_written)
           (unit_fold "mean" 0 [flat_row 0.125 10]) ZeroDivisionError).
  - left. reflexivity.
  - vm_compute. reflexivity.
Defined.

(** ** BinAggregator: sigma clipping as the file stands *)

Section SigclipUnbound.
Context {R : Reductions}.
Local Open Scope float_scope.

Variables (binmethod : string) (threshold : float) (niter : Z) (dt : float).
Variables (rng : list float) (sorted_tuples : list PTuple).
Hypothesis unbound : sigclip_unbound R.
Hypothesis not_mean : binmethod <> "mean"%string.
Hypothesis not_median : binmethod <> "median"%string.

Lemma reduce_bin_unbound nb0 w :
  reduce_bin binmethod threshold niter dt nb0 w = inl NameError.
Proof.
  unfold reduce_bin.
  destruct (String.eqb_spec binmethod "mean"); [contradiction|].
  destruct (String.eqb_spec binmethod "median"); [contradiction|].
  unfold clipped. now rewrite unbound.
Qed.

(** From a state whose buffers are not empty, a range that holds an
    index past the sorted tuples cannot be run to its end. *)
Lemma bin_loop_unbound range : forall st,
  work st <> [] ->
  (exists i, In i range /\ nth_error sorted_tuples i = None) ->
  exists e,
    bin_loop binmethod threshold niter dt rng sorted_tuples st range = inl e
    /\ (e = NameError \/ e = IndexError).
Proof.
  induction range as [|i range IH]; intros st Hw (j & Hj & Hnone).
  - contradiction.
  - simpl. unfold bind, bin_step.
    destruct (_ || _)%bool.
    + destruct (work st) as [|t w]; [now elim Hw|].
      unfold bind. rewrite reduce_bin_unbound.
      exists NameError. split; [reflexivity | now left].
    + destruct (nth_error sorted_tuples i) as [t|] eqn:Hi.
      * unfold ret. apply IH.
        -- simpl. now destruct (work st).
        -- exists j. split; [|exact Hnone].
           destruct Hj as [->|Hj]; [congruence | exact Hj].
      * exists IndexError. split; [reflexivity | now right].
Qed.

End SigclipUnbound.

Section SigclipPipeline.
Context {R : Reductions}.

(** X8. As the file stands the sigma-clip call cannot be made, and with
    binning on and a method other than the mean and the median the
    pipeline never returns: it ends with an exception for every input. *)
Theorem sigclip_never_returns :
  forall a : Args,
    sigclip_unbound R ->
    bindata a = true ->
    binmethod a <> "mean"%string -> binmethod a <> "median"%string ->
    exists e, kepfold_core a = inl e.
Proof.
  intros a Hunbound Hbin Hmean Hmedian. unfold kepfold_core, bind.
  destruct (filter_rows _ _ _) as [e|k]; [now exists e|].
  rewrite Hbin. unfold bin_phases.
  destruct (sorted (ptuple_of (bjdref a) (shift_bjd0 (bjd0 a) (bjdref a))
                      (period a) (cadenom a) k)) as [|t0 ts];
    [now eexists|].
  destruct (nbins a =? 0)%Z; [now eexists|].
  unfold bind.
  match goal with
  | |- context [bin_loop ?m ?th ?n ?dt ?rng ?ps ?st ?range] =>
      destruct (bin_loop_unbound m th n dt rng ps Hunbound Hmean Hmedian
                  range st) as (e & -> & _)
  end.
  - discriminate.
  - exists (List.length (t0 :: ts)). split.
    + apply in_seq. rewrite length_app, length_map. simpl. lia.
    + apply nth_error_None. apply le_n.
  - now eexists.
Qed.

End SigclipPipeline.

Lemma sigclip_never_returns_witness :
  exists e,
    kepfold_core (R := as_written)
      (unit_fold "sigclip" 2 [flat_row 0.125 10; flat_row 0.625 20])
    = inl e.
Proof.
  apply (sigclip_never_returns (R := as_written)
           (unit_fold "sigclip" 2 [flat_row 0.125 10; flat_row 0.625 20])).
  - intros guess x y yerr lo hi n. reflexivity.
  - reflexivity.
  - discriminate.
  - discriminate.
Defined.

(** ** BinAggregator: what the loop keeps true *)

Section BinTrace.
Context {R : Reductions}.
Local Open Scope float_scope.

Variables (binmethod : string) (threshold : float) (niter : Z) (dt : float).
Variables (rng : list float) (sorted_tuples : list PTuple).

Lemma reduce_bin_phase nb0 w b :
  reduce_bin binmethod threshold niter dt nb0 w = inr b ->
  b_phase b = (nb0 + 0.5) * dt.
Proof.
  unfold reduce_bin.
  destruct (binmethod =? "mean")%string;
    [|destruct (binmethod =? "median")%string].
  - unfold ret. intros H. now injection H as <-.
  - unfold ret. intros H. now injection H as <-.
  - unfold bind, ret.
    destruct (clipped _ _ (map t_sap w) _); [discriminate|].
    destruct (clipped _ _ (map t_pdc w) _); [discriminate|].
    destruct (clipped _ _ (map t_cbv w) _); [discriminate|].
    destruct (clipped _ _ (map t_det w) _); [discriminate|].
    intros H. now injection H as <-.
Qed.

Lemma StronglySorted_snoc ks k :
  StronglySorted lt ks -> Forall (fun j => (j < k)%nat) ks ->
  StronglySorted lt (ks ++ [k]).
Proof.
  induction 1 as [|j ks Hs IH Hj]; intros Hlt; simpl.
  - repeat constructor.
  - inversion Hlt; subst. constructor; [now apply IH|].
    apply Forall_app. split; [exact Hj | now repeat constructor].
Qed.

Lemma samples_counted_snoc bs w b :
  samples_counted (bs ++ [(w, b)]) =
  (samples_counted bs + List.length w)%nat.
Proof.
  unfold samples_counted. rewrite map_app, list_sum_app. simpl. lia.
Qed.

Lemma bin_step_trace k m st i st' :
  trace_inv dt sorted_tuples k m st ->
  bin_step binmethod threshold niter dt rng sorted_tuples st i = inr st' ->
  exists k', trace_inv dt sorted_tuples k' (S m) st' /\ (k' <= S k)%nat.
Proof.
  intros (Hnb & (ks & Hks & Hsorted & Hlt) & Hne & Hwork & Hcount & Hlen).
  unfold bin_step. destruct (_ || _)%bool.
  - destruct (work st) as [|t w] eqn:Hw; unfold bind, ret.
    + intros H. exists (S k). split; [|apply le_n].
      injection H as <-. unfold trace_inv. simpl in *.
      split; [now rewrite Hnb|]. split.
      { exists ks. repeat split; trivial.
        eapply Forall_impl; [|exact Hlt]. simpl. lia. }
      split; [exact Hne|]. split; [apply incl_nil_l|].
      split; lia.
    + destruct (reduce_bin _ _ _ _ _ _) as [e|b] eqn:Hb; [discriminate|].
      intros H. exists (S k). split; [|apply le_n].
      injection H as <-. unfold trace_inv. simpl.
      split; [now rewrite Hnb|]. split.
      { exists (ks ++ [k]). rewrite !map_app, Hks. simpl.
        rewrite (reduce_bin_phase _ _ _ Hb), Hnb.
        split; [reflexivity|]. split; [now apply StronglySorted_snoc|].
        apply Forall_app. split.
        - eapply Forall_impl; [|exact Hlt]. simpl. lia.
        - repeat constructor. }
      split.
      { apply Forall_app. split; [exact Hne|].
        constructor; [|constructor]. simpl. split; [discriminate|exact Hwork]. }
      split; [apply incl_nil_l|].
      rewrite samples_counted_snoc, length_app. simpl in *. split; lia.
  - destruct (nth_error sorted_tuples i) as [t|] eqn:Ht; [|discriminate].
    unfold ret. intros H. injection H as <-.
    exists k. split; [|lia]. unfold trace_inv. simpl.
    split; [exact Hnb|]. split; [now exists ks|].
    split; [exact Hne|]. split.
    + apply incl_app; [exact Hwork|].
      intros x [<-|[]]. now apply nth_error_In in Ht.
    + rewrite length_app. simpl. split; lia.
Qed.

Lemma bin_loop_trace range : forall k m st st',
  trace_inv dt sorted_tuples k m st ->
  bin_loop binmethod threshold niter dt rng sorted_tuples st range
    = inr st' ->
  exists k',
    trace_inv dt sorted_tuples k' (m + List.length range) st'
    /\ (k' <= k + List.length range)%nat.
Proof.
  induction range as [|i range IH]; intros k m st st' Hinv; simpl.
  - unfold ret. intros H. injection H as <-.
    exists k. rewrite !Nat.add_0_r. now split.
  - unfold bind.
    destruct (bin_step _ _ _ _ _ _ st i) as [e|st1] eqn:Hstep;
      [discriminate|].
    intros Hloop.
    destruct (bin_step_trace k m st i st1 Hinv Hstep) as (k1 & Hinv1 & Hk1).
    destruct (IH k1 (S m) st1 st' Hinv1 Hloop) as (k' & Hinv' & Hk').
    exists k'. replace (m + S (List.length range))%nat
      with (S m + List.length range)%nat by lia.
    split; [exact Hinv' | lia].
Qed.

End BinTrace.

Section BinTraceClaims.
Context {R : Reductions}.
Local Open Scope float_scope.

Lemma bin_phases_trace binmethod threshold niter nbins sorted_tuples bs :
  bin_phases binmethod threshold niter nbins sorted_tuples = inr bs ->
  exists k st,
    emitted st = bs
    /\ trace_inv (1 / Np.float_of_Z nbins) sorted_tuples k
         (S (List.length sorted_tuples)) st
    /\ (k <= S (List.length sorted_tuples))%nat.
Proof.
  unfold bin_phases.
  destruct sorted_tuples as [|t0 ts] eqn:Hs; [discriminate|].
  destruct (nbins =? 0)%Z; [discriminate|].
  unfold bind, ret.
  destruct (bin_loop _ _ _ _ _ _ _ _) as [e|st] eqn:Hloop; [discriminate|].
  intros H. injection H as <-.
  apply (bin_loop_trace _ _ _ _ _ _ _ 0%nat 0%nat) in Hloop.
  - destruct Hloop as (k & Hinv & Hk).
    rewrite length_seq, length_app, length_map in Hinv, Hk.
    simpl in Hinv, Hk.
    replace (List.length ts + 1)%nat with (S (List.length ts)) in Hinv, Hk
      by lia.
    exists k, st. split; [reflexivity|]. split; [exact Hinv | exact Hk].
  - unfold trace_inv. simpl. split; [reflexivity|]. split.
    + exists []. repeat split; constructor.
    + split; [constructor|]. split; [|split; lia].
      intros x [<-|[]]. now left.
Qed.

(** X9. When binning returns, no emitted bin has an empty buffer and
    every buffered tuple is one of the sorted tuples; the centre phases
    are [(nb + 0.5) * dt] for values of [nb] reached after
    [k1 < k2 < ...] flushing turns, so the bins come out in increasing
    bin index with no index used twice, and no index exceeds the number
    of sorted samples. *)
Theorem bins_nonempty_in_index_order :
  forall (binmethod : string) (threshold : float) (niter nbins : Z)
         (sorted_tuples : list PTuple) (bs : list (list PTuple * PhaseBin)),
    bin_phases binmethod threshold niter nbins sorted_tuples = inr bs ->
    Forall (fun e => fst e <> [] /\ incl (fst e) sorted_tuples) bs
    /\ exists ks,
         map (fun e => b_phase (snd e)) bs =
           map (centre (1 / Np.float_of_Z nbins)) ks
         /\ StronglySorted lt ks
         /\ Forall (fun j => (j <= List.length sorted_tuples)%nat) ks.
Proof.
  intros binmethod threshold niter nbins sorted_tuples bs Hbs.
  destruct (bin_phases_trace _ _ _ _ _ _ Hbs)
    as (k & st & <- & (_ & (ks & Hks & Hsorted & Hlt) & Hne & _) & Hk).
  split; [exact Hne|]. exists ks. repeat split; trivial.
  eapply Forall_impl; [|exact Hlt]. simpl. lia.
Qed.

(** X10. When binning returns, the samples counted in the emitted bins
    and the emitted bins together number at most two more than the
    sorted samples: beyond the one sample the buffers start with, every
    emitted bin costs one sample. *)
Theorem binning_counts_at_most :
  forall (binmethod : string) (threshold : float) (niter nbins : Z)
         (sorted_tuples : list PTuple) (bs : list (list PTuple * PhaseBin)),
    bin_phases binmethod threshold niter nbins sorted_tuples = inr bs ->
    (samples_counted bs + List.length bs
     <= List.length sorted_tuples + 2)%nat.
Proof.
  intros binmethod threshold niter nbins sorted_tuples bs Hbs.
  destruct (bin_phases_trace _ _ _ _ _ _ Hbs)
    as (k & st & <- & (_ & _ & _ & _ & Hcount & Hlen) & Hk).
  lia.
Qed.

End BinTraceClaims.

Lemma bins_nonempty_in_index_order_witness :
  exists bs,
    bin_phases (R := as_written) "median" 1 5 2 four_tuples = inr bs
    /\ map (fun e => b_phase (snd e)) bs = [0.25; 0.75]%float
    /\ Forall (fun e => fst e <> [] /\ incl (fst e) four_tuples) bs.
Proof.
  eexists. split; [vm_compute; reflexivity|]. split; [reflexivity|].
  apply (bins_nonempty_in_index_order (R := as_written) "median" 1 5 2
           four_tuples).
  vm_compute. reflexivity.
Defined.

(** Four samples in two bins: the first bin counts three (the first
    sample twice), the second one; that is 4 + 2 = 6 against the bound
    4 + 2. *)
Lemma binning_counts_at_most_witness :
  exists bs,
    bin_phases (R := as_written) "median" 1 5 2 four_tuples = inr bs
    /\ samples_counted bs = 4%nat /\ List.length bs = 2%nat
    /\ (samples_counted bs + List.length bs
        <= List.length four_tuples + 2)%nat.
Proof.
  eexists. split; [vm_compute; reflexivity|].
  split; [reflexivity|]. split; [reflexivity|].
  apply (binning_counts_at_most (R := as_written) "median" 1 5 2
           four_tuples).
  vm_compute. reflexivity.
Defined.

(** ** PhaseMapper and BinAggregator: a period of zero *)

Section ZeroPeriod.
Local Open Scope float_scope.

Lemma is_nan_eq x : is_nan x = true -> x = nan.
Proof.
  intros H. apply Prim2SF_inj. unfold Prim2SF at 1. rewrite H.
  reflexivity.
Qed.

Lemma Prim2SF_nan_eq x : Prim2SF x = S754_nan -> x = nan.
Proof.
  intros H. rewrite <- (SF2Prim_Prim2SF x), H. reflexivity.
Qed.

Lemma div_zero_cases d :
  Prim2SF (d / 0) = S754_nan \/ exists s, Prim2SF (d / 0) = S754_infinity s.
Proof.
  rewrite div_spec. change (Prim2SF 0) with (S754_zero false).
  unfold SF64div, SFdiv. destruct (Prim2SF d); eauto.
Qed.

(** X11. With a period of zero the phase of every timestamp is NaN. *)
Theorem zero_period_phase_is_nan :
  forall bjdref bjd0 t : float, phase_of bjdref bjd0 0 t = nan.
Proof.
  intros bjdref bjd0 t. unfold phase_of.
  set (q := (t + bjdref - bjd0) / 0).
  apply Prim2SF_nan_eq. rewrite sub_spec.
  assert (Hfloor : Np.floor q = q).
  { unfold Np.floor.
    destruct (div_zero_cases (t + bjdref - bjd0)) as [H | [s H]];
      fold q in H; now rewrite H. }
  rewrite Hfloor.
  destruct (div_zero_cases (t + bjdref - bjd0)) as [H | [s H]];
    fold q in H; rewrite H; [reflexivity|].
  now destruct s.
Qed.

Lemma ltb_nan_l x : (nan <? x) = false.
Proof.
  rewrite FloatAxioms.ltb_spec. change (Prim2SF nan) with S754_nan.
  reflexivity.
Qed.

Lemma leb_nan_r x : (x <=? nan) = false.
Proof.
  rewrite FloatAxioms.leb_spec. change (Prim2SF nan) with S754_nan.
  unfold SFleb. now destruct (Prim2SF x).
Qed.

End ZeroPeriod.

Section NanPhases.
Context {R : Reductions}.
Local Open Scope float_scope.

Variables (binmethod : string) (threshold : float) (niter : Z) (dt : float).
Variables (rng : list float) (sorted_tuples : list PTuple).

(** A turn on a NaN phase never flushes; a range of such turns with an
    index past the sorted tuples in it ends on that index. *)
Lemma bin_loop_nan range : forall st,
  (forall i, In i range -> nth i rng 0 = nan) ->
  (exists i, In i range /\ nth_error sorted_tuples i = None) ->
  bin_loop binmethod threshold niter dt rng sorted_tuples st range
    = inl IndexError.
Proof.
  induction range as [|i range IH]; intros st Hnan (j & Hj & Hnone).
  - contradiction.
  - simpl. unfold bind, bin_step.
    rewrite (Hnan i (or_introl eq_refl)), ltb_nan_l, leb_nan_r. simpl.
    destruct (nth_error sorted_tuples i) as [t|] eqn:Hi; [|reflexivity].
    unfold ret. apply IH.
    + intros i' Hi'. apply Hnan. now right.
    + exists j. split; [|exact Hnone].
      destruct Hj as [->|Hj]; [congruence | exact Hj].
Qed.

End NanPhases.

Section NanPipeline.
Context {R : Reductions}.
Local Open Scope float_scope.

Lemma bin_phases_nan binmethod threshold niter nbins t0 ts :
  nbins <> 0%Z ->
  Forall (fun t => t_phase t = nan) (t0 :: ts) ->
  bin_phases binmethod threshold niter nbins (t0 :: ts) = inl IndexError.
Proof.
  intros Hn Hall. unfold bin_phases.
  destruct (Z.eqb_spec nbins 0); [contradiction|].
  unfold bind. rewrite bin_loop_nan; [reflexivity| |].
  - intros i Hi. apply in_seq in Hi.
    rewrite length_app, length_map in Hi. simpl in Hi.
    assert (Hrng : Forall (fun p => p = nan)
                     (map t_phase (t0 :: ts) ++ [t_phase t0 + 1])).
    { apply Forall_app. split.
      - apply Forall_map. exact Hall.
      - constructor; [|constructor].
        inversion Hall as [|? ? H0 _]; subst. rewrite H0. reflexivity. }
    apply (proj1 (Forall_forall _ _) Hrng). apply nth_In.
    rewrite length_app, length_map. simpl. lia.
  - exists (List.length (t0 :: ts)). split.
    + apply in_seq. rewrite length_app, length_map. simpl. lia.
    + apply nth_error_None. apply le_n.
Qed.

(** X12. With a period of zero, binning on, a channel selected, some row
    kept and [nbins] not 0, the run ends with [IndexError] whatever the
    method: every phase is NaN, no turn flushes, and the turn of the
    wrap point reads past the end of the sorted arrays. *)
Theorem zero_period_binning_fails :
  forall (a : Args) (datacol errcol : Row -> float),
    select_columns (plottype a) = Some (datacol, errcol) ->
    bindata a = true ->
    period a = 0 ->
    filter (retained datacol errcol (rejqual a)) (table a) <> [] ->
    nbins a <> 0%Z ->
    kepfold_core a = inl IndexError.
Proof.
  intros a datacol errcol Hsel Hbin Hper Hkept Hn.
  unfold kepfold_core.
  rewrite (filter_rows_selected _ _ _ _ _ Hsel).
  unfold bind, ret. rewrite ptuple_of_columns, Hbin, Hper.
  set (ps := sorted (map _ _)).
  assert (Hall : Forall (fun t => t_phase t = nan) ps).
  { apply sorted_Forall, Forall_map, Forall_forall. intros r _.
    unfold mk_ptuple. simpl. rewrite zero_period_phase_is_nan.
    reflexivity. }
  destruct ps as [|t0 ts] eqn:Hps.
  - apply (proj1 (sorted_nil_iff _)) in Hps.
    apply map_eq_nil in Hps. contradiction.
  - now rewrite bin_phases_nan.
Qed.

End NanPipeline.

Lemma zero_period_binning_fails_witness :
  kepfold_core (R := as_written)
    {| table := [flat_row 0.25 8; flat_row 3 7];
       bjdref := 0; cadenom := 1; period := 0; bjd0 := 0;
       bindata := true; binmethod := "median"; threshold := 1; niter := 5;
       nbins := 2; rejqual := false; plottype := "sap" |}
  = inl IndexError.
Proof.
  apply (zero_period_binning_fails (R := as_written) _ sap saperr);
    try reflexivity; discriminate.
Defined.

(** ** WrapAroundExpander: size and content *)

Section WrapMore.
Local Open Scope float_scope.

Lemma wrap_around_series pts :
  wrap_around (map fst pts) (map snd pts) =
  (map fst (map cycle_down (filter past_half pts) ++ pts
            ++ map cycle_up (filter up_to_half pts)),
   map snd (map cycle_down (filter past_half pts) ++ pts
            ++ map cycle_up (filter up_to_half pts))).
Proof.
  unfold wrap_around. rewrite length_map.
  pose proof (wrap_down_series pts [] ([], [])) as Hdown.
  pose proof (fun acc => wrap_up_series pts [] acc) as Hup.
  simpl in Hdown, Hup. rewrite Hdown, Hup. simpl.
  now rewrite !map_app, !app_assoc.
Qed.

Lemma past_half_or_not q :
  is_nan (fst q) = false -> past_half q = negb (up_to_half q).
Proof.
  intros Hq. unfold past_half, up_to_half.
  destruct (fst q <=? 0.5) eqn:Hle; simpl.
  - now apply leb_not_ltb.
  - destruct (0.5 <? fst q) eqn:Hlt; [reflexivity|].
    rewrite (not_ltb_leb (fst q) 0.5 Hq eq_refl Hlt) in Hle. discriminate.
Qed.

Lemma halves_length pts :
  Forall (fun q => is_nan (fst q) = false) pts ->
  (List.length (filter past_half pts) + List.length (filter up_to_half pts)
   = List.length pts)%nat.
Proof.
  induction 1 as [|q pts Hq _ IH]; [reflexivity|].
  simpl. rewrite (past_half_or_not q Hq).
  destruct (up_to_half q); simpl; lia.
Qed.

(** X13. The two arrays made for display have one length and every
    value in [pout] is a value of [work]; when no phase is NaN each
    point of the series appears exactly twice, the arrays having twice
    the length of the series. *)
Theorem wrap_around_doubles :
  forall pts : list (float * float),
    Forall (fun q => is_nan (fst q) = false) pts ->
    let out := wrap_around (map fst pts) (map snd pts) in
    List.length (fst out) = (2 * List.length pts)%nat
    /\ List.length (snd out) = List.length (fst out)
    /\ incl (snd out) (map snd pts).
Proof.
  intros pts Hnan out. unfold out. rewrite wrap_around_series.
  simpl fst; simpl snd. rewrite !length_map.
  split; [|split; [reflexivity|]].
  - rewrite !length_app, !length_map.
    pose proof (halves_length pts Hnan). lia.
  - rewrite !map_app, !map_map. simpl.
    apply incl_app; [|apply incl_app; [apply incl_refl|]];
      intros v Hv; apply in_map_iff in Hv;
      destruct Hv as (q & <- & Hq); apply filter_In in Hq;
      apply in_map; tauto.
Qed.

Lemma wrap_around_doubles_witness :
  let pts := [(0.125, 7); (0.5, 8); (0.75, 9)] in
  let out := wrap_around (map fst pts) (map snd pts) in
  List.length (fst out) = 6%nat
  /\ List.length (snd out) = List.length (fst out)
  /\ incl (snd out) [7; 8; 9].
Proof.
  intros pts out.
  apply (wrap_around_doubles pts). repeat constructor.
Defined.

End WrapMore.

(** ** PhaseMapper: one period later, in exact arithmetic *)

Section PhaseMore.

Lemma Qfloor_succ (x : Q) : Qfloor (x + 1) = (Qfloor x + 1)%Z.
Proof.
  apply Z.le_antisymm.
  - apply Z.lt_succ_r. unfold Z.succ. rewrite Zlt_Qlt.
    apply (Qle_lt_trans _ (x + 1)); [apply Qfloor_le|].
    rewrite !inject_Z_plus. change (inject_Z 1) with 1%Q.
    apply Qplus_lt_l. pose proof (Qlt_floor x) as H.
    rewrite inject_Z_plus in H. exact H.
  - rewrite <- (Qfloor_Z (Qfloor x + 1)). apply Qfloor_resp_le.
    rewrite inject_Z_plus. change (inject_Z 1) with 1%Q.
    apply Qplus_le_l. apply Qfloor_le.
Qed.

(** X14. In exact arithmetic the phase is periodic: for a period other
    than zero, a timestamp one period later has the same phase. *)
Theorem phase_exact_periodic :
  forall bjdref bjd0 period t : Q,
    ~ (period == 0)%Q ->
    (phase_exact bjdref bjd0 period (t + period)
     == phase_exact bjdref bjd0 period t)%Q.
Proof.
  intros bjdref bjd0 period t Hp. unfold phase_exact. cbv zeta.
  set (x := ((t + bjdref - bjd0) / period)%Q).
  set (x' := ((t + period + bjdref - bjd0) / period)%Q).
  assert (Hx : (x' == x + 1)%Q) by (unfold x, x'; field; exact Hp).
  assert (Hf : Qfloor x' = (Qfloor x + 1)%Z).
  { rewrite <- Qfloor_succ. apply Qfloor_comp. exact Hx. }
  rewrite Hf, inject_Z_plus. change (inject_Z 1) with 1%Q.
  rewrite Hx. ring.
Qed.

Lemma phase_exact_periodic_witness :
  (phase_exact 0 (5 # 2) 2 ((-3 # 4) + 2)
   == phase_exact 0 (5 # 2) 2 (-3 # 4))%Q.
Proof.
  apply (phase_exact_periodic 0 (5 # 2) 2 (-3 # 4)). discriminate.
Defined.

End PhaseMore.

(** ** The default output name (lines 109-110) *)

Section OutfileMore.
Local Open Scope string_scope.

Lemma before_dot_app stem rest :
  contains "." stem = false ->
  before_dot (stem ++ "." ++ rest) = stem /\ before_dot stem = stem.
Proof.
  induction stem as [|c stem IH]; intros Hdot.
  - split; reflexivity.
  - simpl in Hdot. apply orb_false_iff in Hdot. destruct Hdot as [Hc Hs].
    simpl. destruct (Ascii.eqb_spec c dot) as [->|Hne].
    + simpl in Hc. destruct stem; discriminate.
    + destruct (IH Hs) as [H1 H2]. simpl in H1. now rewrite H1, H2.
Qed.

(** X15. Without an [outfile] argument the output name is the part of
    [infile] before its first dot followed by [-kepfold.fits]: whatever
    follows that dot plays no part, and a name without a dot is used
    whole. An [outfile] argument is used as it is. *)
Theorem default_outfile_name :
  forall stem rest : string,
    contains "." stem = false ->
    outfile_of None (stem ++ "." ++ rest) = stem ++ "-kepfold.fits"
    /\ outfile_of None stem = stem ++ "-kepfold.fits"
    /\ forall name infile, outfile_of (Some name) infile = name.
Proof.
  intros stem rest Hdot. unfold outfile_of.
  destruct (before_dot_app stem rest Hdot) as [-> ->].
  repeat split.
Qed.

Lemma default_outfile_name_witness :
  outfile_of None "kplr010544976-2009201121230_slc.fits"
    = "kplr010544976-2009201121230_slc-kepfold.fits"
  /\ outfile_of None "kplr010544976-2009201121230_slc"
     = "kplr010544976-2009201121230_slc-kepfold.fits".
Proof.
  destruct (default_outfile_name "kplr010544976-2009201121230_slc" "fits"
              eq_refl) as (H1 & H2 & _).
  split; [exact H1 | exact H2].
Defined.

(** A relative path that starts with a dot loses all of its name. *)
Example outfile_of_dot_path :
  outfile_of None "./data/lc.fits" = "-kepfold.fits".
Proof. reflexivity. Qed.

End OutfileMore.
